(** * The unique-visitor view counter of the link-in-bio page

    A shallow embedding of the stateful logic of [src/app.jsx]:

    - [getUniqueVisitorId] (lines 34-41), the per-browser identifier kept in
      [localStorage];
    - [trackPageView] (lines 93-123), the conditional increment of the shared
      counter document;
    - the two callbacks handed to [onSnapshot] (lines 135-151), which drive
      the displayed count and the pulse flag.

    The browser and the hosted document store are the environment.  Their
    state is threaded explicitly through a small state-and-exception monad;
    what the environment decides on its own (random digits, clock readings,
    which store request is rejected, whether [localStorage] throws) is an
    input of the run.

    Numbers are the integers plus [NaN]: a visitor counter only ever holds
    integer values far inside the range where adding one is exact.
    Documents hold primitive field values only.  A document reference is the
    list of the path segments given to [doc]. *)

From Stdlib Require Import Ascii.
From stdpp Require Import gmap strings pretty list.

Open Scope Z_scope.

(** ** JavaScript values *)

Inductive jsval : Type :=
| JUndefined
| JNull
| JBool (b : bool)
| JNum (z : Z)
| JNaN
| JStr (s : string).

#[global] Instance jsval_eq_dec : EqDecision jsval.
Proof. solve_decision. Defined.

(** Truthiness, as used by [!x] and [x || y]. *)
Definition js_truthy (v : jsval) : bool :=
  match v with
  | JUndefined | JNull | JNaN => false
  | JBool b => b
  | JNum z => negb (z =? 0)
  | JStr s => negb (bool_decide (s = ""))
  end.

(** [a || b] *)
Definition js_or (a b : jsval) : jsval := if js_truthy a then a else b.

(** [a === b]: same type and same value, and [NaN] equals nothing. *)
Definition js_strict_eq (a b : jsval) : bool :=
  match a, b with
  | JNaN, _ | _, JNaN => false
  | _, _ => bool_decide (a = b)
  end.

(** [a !== b] *)
Definition js_strict_neq (a b : jsval) : bool := negb (js_strict_eq a b).

Definition js_to_string (v : jsval) : string :=
  match v with
  | JUndefined => "undefined"
  | JNull => "null"
  | JBool true => "true"
  | JBool false => "false"
  | JNum z => pretty z
  | JNaN => "NaN"
  | JStr s => s
  end.

(** ToNumber on the values that are not strings; [None] stands for [NaN]. *)
Definition js_to_number (v : jsval) : option Z :=
  match v with
  | JNull => Some 0
  | JBool true => Some 1
  | JBool false => Some 0
  | JNum z => Some z
  | JUndefined | JNaN | JStr _ => None
  end.

(** [a + b]: concatenation as soon as one side is a string, otherwise the
    sum of the two sides converted to numbers.  The sum of two integers is
    the exact one, which is the sum of the two doubles as long as it is a
    safe integer ([safe_integer] below). *)
Definition js_add (a b : jsval) : jsval :=
  match a, b with
  | JStr s, _ => JStr (s +:+ js_to_string b)
  | _, JStr s => JStr (js_to_string a +:+ s)
  | _, _ =>
      match js_to_number a, js_to_number b with
      | Some x, Some y => JNum (x + y)
      | _, _ => JNaN
      end
  end.

(** ** Exceptions and outcomes *)

Inductive exn : Type :=
| DOMException (name : string)
| FirestoreError (code : string)
| TypeError (msg : string).

Inductive outcome (A : Type) : Type :=
| Returns (a : A)
| Throws (e : exn).
Arguments Returns {A} a.
Arguments Throws {A} e.

(** ** The browser's local storage *)

(** [items] is the origin's key-value content.  [getItem_throws] and
    [setItem_throws] say whether the browser refuses the call (storage
    disabled, quota exhausted).  [setItem_calls] records the writes that took
    effect, oldest first. *)
Record Storage : Type := mkStorage {
  items : gmap string string;
  getItem_throws : bool;
  setItem_throws : bool;
  setItem_calls : list (string * string)
}.

Definition getItem (key : string) (st : Storage) : outcome (option string) :=
  if getItem_throws st then Throws (DOMException "SecurityError")
  else Returns (items st !! key).

Definition setItem (key value : string) (st : Storage) : outcome unit * Storage :=
  if setItem_throws st then (Throws (DOMException "QuotaExceededError"), st)
  else (Returns tt,
        mkStorage (<[key := value]> (items st)) (getItem_throws st)
                  (setItem_throws st) (setItem_calls st ++ [(key, value)])).

(** ** The shared document store *)

Abbreviation document := (gmap string jsval).
Abbreviation docref := (list string).

Abbreviation documents := (gmap docref document).

Inductive request : Type :=
| GetDoc (ref : docref)
| SetDoc (ref : docref) (data : document) (merge : bool).

(** [docs] maps a document path to its fields.  [fault_at n] is the error
    code with which the store rejects the [n]-th request it receives, if it
    rejects it.  [trace] lists the requests received so far, oldest first,
    each with the error it was rejected with. *)
Record backend : Type := mkBackend {
  docs : documents;
  fault_at : nat → option string;
  trace : list (request * option string)
}.

(** [snap.data().f], [undefined] when the field is absent. *)
Definition field (d : document) (f : string) : jsval := default JUndefined (d !! f).

(** The document a successful [setDoc] leaves at the path. *)
Definition written (old : option document) (data : document) (merge : bool) : document :=
  if merge then data ∪ default ∅ old else data.

(** ** State of one page *)

Record world : Type := mkWorld {
  local : Storage;
  remote : backend;
  console : list (string * exn)
}.

Definition M (A : Type) : Type := world → outcome A * world.

Definition ret {A} (a : A) : M A := λ w, (Returns a, w).

Definition bind {A B} (m : M A) (k : A → M B) : M B :=
  λ w, match m w with
       | (Returns a, w') => k a w'
       | (Throws e, w') => (Throws e, w')
       end.

Definition try_catch {A} (body : M A) (handler : exn → M A) : M A :=
  λ w, match body w with
       | (Returns a, w') => (Returns a, w')
       | (Throws e, w') => handler e w'
       end.

Notation "x <~ c1 ;; c2" := (bind c1 (λ x, c2))
  (at level 100, c1 at next level, right associativity).
Notation "c1 ;;; c2" := (bind c1 (λ _, c2))
  (at level 100, right associativity).

(** [console.error(label, e)] *)
Definition console_error (label : string) (e : exn) : M unit :=
  λ w, (Returns tt, mkWorld (local w) (remote w) (console w ++ [(label, e)])).

(** The store receives request [r]: it is appended to the trace together
    with the store's verdict, which is also the result. *)
Definition receive (r : request) (b : backend) : option string * backend :=
  let verdict := fault_at b (length (trace b)) in
  (verdict, mkBackend (docs b) (fault_at b) (trace b ++ [(r, verdict)])).

(** [await getDoc(ref)]: the snapshot is the document at the path, if any. *)
Definition getDoc (ref : option docref) : M (option document) :=
  match ref with
  | None => λ w, (Throws (TypeError "getDoc: no document reference"), w)
  | Some r =>
      λ w, match receive (GetDoc r) (remote w) with
           | (Some code, b) =>
               (Throws (FirestoreError code), mkWorld (local w) b (console w))
           | (None, b) =>
               (Returns (docs b !! r), mkWorld (local w) b (console w))
           end
  end.

(** [await setDoc(ref, data)] and [await setDoc(ref, data, {merge: true})].
    A rejected write leaves the documents as they were. *)
Definition setDoc (ref : option docref) (data : document) (merge : bool) : M unit :=
  match ref with
  | None => λ w, (Throws (TypeError "setDoc: no document reference"), w)
  | Some r =>
      λ w, match receive (SetDoc r data merge) (remote w) with
           | (Some code, b) =>
               (Throws (FirestoreError code), mkWorld (local w) b (console w))
           | (None, b) =>
               (Returns tt,
                mkWorld (local w)
                  (mkBackend (<[r := written (docs b !! r) data merge]> (docs b))
                             (fault_at b) (trace b))
                  (console w))
           end
  end.

(** ** Inputs of one page load *)

(** The handle returned by [getFirestore]. *)
Inductive Firestore : Type := FirestoreHandle.

(** [doc(firestoreDb, ...segments)]: the reference is the path, one element
    for each argument.  This is what [doc] returns when every argument is a
    single path segment; a statement that says which requests a load sends
    for an identifier assumes so of the identifier and of the app id
    ([single_segment] below). *)
Definition doc (firestoreDb : Firestore) (segments : list string) : docref :=
  segments.

Record page : Type := mkPage {
  isAuthReady : bool;
  db : option Firestore;
  random36 : string;       (* Math.random().toString(36) *)
  date_now : Z;            (* Date.now() *)
  iso_count : string;      (* new Date().toISOString() of the counter write *)
  iso_visit : string;      (* new Date().toISOString() of the visitor write *)
  userAgent : string       (* navigator.userAgent *)
}.

Definition visitor_key : string := "siraw_unique_visitor_id".

(** ['visitor_' + Math.random().toString(36).substring(2, 11) + '_' + Date.now()] *)
Definition fresh_visitor_id (p : page) : string :=
  "visitor_" +:+ String.substring 2 9 (random36 p) +:+ "_" +:+ pretty (date_now p).

(** [!visitorId] for the result of [getItem]: [null] or the empty string. *)
Definition no_visitor_id (v : option string) : bool :=
  match v with
  | None => true
  | Some s => bool_decide (s = "")
  end.

(** Lines 34-41. *)
Definition getUniqueVisitorId (p : page) (st : Storage) : outcome string * Storage :=
  match getItem visitor_key st with
  | Throws e => (Throws e, st)
  | Returns stored =>
      if no_visitor_id stored then
        let visitorId := fresh_visitor_id p in
        match setItem visitor_key visitorId st with
        | (Throws e, st') => (Throws e, st')
        | (Returns _, st') => (Returns visitorId, st')
        end
      else (Returns (default "" stored), st)
  end.

(** The same call inside a page. *)
Definition callGetUniqueVisitorId (p : page) : M string :=
  λ w, let '(r, st) := getUniqueVisitorId p (local w) in
       (r, mkWorld st (remote w) (console w)).

Section Protocol.

(** The global [__app_id] of the hosting environment, when it is defined. *)
Variable app_id_global : option string.

(** Line 12. *)
Definition appId : string := default "default-app-id" app_id_global.

(** Lines 53-56. *)
Definition getCountDocRef (firestoreDb : option Firestore) : option docref :=
  match firestoreDb with
  | None => None
  | Some h =>
      Some (doc h ["artifacts"; appId; "public"; "data"; "viewCounts"; "profile"])
  end.

(** Lines 59-62. *)
Definition getVisitorDocRef (firestoreDb : option Firestore) (visitorId : string)
  : option docref :=
  match firestoreDb with
  | None => None
  | Some h =>
      Some (doc h ["artifacts"; appId; "public"; "data"; "uniqueVisitors"; visitorId])
  end.

(** Lines 93-123.  The result is the settlement of the promise: [Returns tt]
    when it resolves, [Throws e] when it rejects. *)
Definition trackPageView (p : page) : M unit :=
  if negb (isAuthReady p) || negb (bool_decide (is_Some (db p))) then ret tt
  else
    visitorId <~ callGetUniqueVisitorId p ;;
    let visitorsRef := getVisitorDocRef (db p) visitorId in
    let countDocRef := getCountDocRef (db p) in
    try_catch
      (visitorSnap <~ getDoc visitorsRef ;;
       match visitorSnap with
       | None =>
           countSnap <~ getDoc countDocRef ;;
           let currentCount :=
             match countSnap with
             | Some data => field data "count"
             | None => JNum 0
             end in
           setDoc countDocRef
             {[ "count" := js_add currentCount (JNum 1);
                "lastUpdate" := JStr (iso_count p) ]} true ;;;
           setDoc visitorsRef
             {[ "firstVisit" := JStr (iso_visit p);
                "userAgent" := JStr (userAgent p) ]} false
       | Some _ => ret tt
       end)
      (λ error, console_error "Error tracking view:" error).

(** *** Page loads one after the other *)

(** The two kinds of document the protocol touches. *)
Definition counter_ref : docref :=
  ["artifacts"; appId; "public"; "data"; "viewCounts"; "profile"].

Definition visitor_ref (visitorId : string) : docref :=
  ["artifacts"; appId; "public"; "data"; "uniqueVisitors"; visitorId].

Definition is_visitor_ref (r : docref) : Prop :=
  length r = 6%nat
  ∧ take 5 r = ["artifacts"; appId; "public"; "data"; "uniqueVisitors"].

#[global] Instance is_visitor_ref_dec r : Decision (is_visitor_ref r).
Proof. unfold is_visitor_ref. apply _. Defined.

(** The value of the global counter, read as line 106 reads it. *)
Definition counter_value (d : documents) : jsval :=
  match d !! counter_ref with
  | Some data => field data "count"
  | None => JNum 0
  end.

(** The number of visitor records in the store.  Nothing in the program
    deletes a document, so from an empty store on this is the number of
    records ever created. *)
Definition visitor_records (d : documents) : nat :=
  size (filter (λ kv, is_visitor_ref kv.1) d).

Definition count_matches_records (d : documents) : Prop :=
  counter_value d = JNum (Z.of_nat (visitor_records d)).

(** One page load by some browser: the page's inputs, the browser's storage
    and the store's verdicts on the requests of this load. *)
Record visit : Type := mkVisit {
  visit_page : page;
  visit_storage : Storage;
  visit_faults : nat → option string
}.

Definition run_visit (v : visit) (d : documents) : outcome unit * world :=
  trackPageView (visit_page v)
    (mkWorld (visit_storage v) (mkBackend d (visit_faults v) []) []).

(** The requests the store receives during one page load, with its
    verdicts. *)
Definition requests_of_load (p : page) (w : world)
  : list (request * option string) :=
  drop (length (trace (remote w))) (trace (remote (trackPageView p w).2)).

Definition after_visit (v : visit) (d : documents) : documents :=
  docs (remote (run_visit v d).2).

Definition after_visits (vs : list visit) (d : documents) : documents :=
  fold_left (λ acc v, after_visit v acc) vs d.

(** Some request of the trace is a write of a visitor record that the store
    rejected. *)
Definition visitor_write_failed (tr : list (request * option string)) : bool :=
  existsb (λ ev, match ev with
                 | (SetDoc r _ _, Some _) => bool_decide (is_visitor_ref r)
                 | _ => false
                 end) tr.

Fixpoint no_visitor_write_fails (vs : list visit) (d : documents) : bool :=
  match vs with
  | [] => true
  | v :: vs' =>
      negb (visitor_write_failed (trace (remote (run_visit v d).2)))
      && no_visitor_write_fails vs' (after_visit v d)
  end.

End Protocol.

(** ** The live counter display *)

(** [viewCount] and [isPulsing] are the component's state; [clock] is the
    current time in milliseconds and [timers] the pending [setTimeout]
    callbacks, each with its due time.  Every callback the component
    registers is [() => setIsPulsing(false)], so a timer only carries the
    value it will store. *)
Record display : Type := mkDisplay {
  viewCount : jsval;
  isPulsing : bool;
  clock : Z;
  timers : list (Z * bool);
  display_console : list (string * exn)
}.

(** Line 46 and line 50. *)
Definition initial_display (now : Z) : display :=
  mkDisplay (JNum 0) false now [] [].

Definition setViewCount (v : jsval) (u : display) : display :=
  mkDisplay v (isPulsing u) (clock u) (timers u) (display_console u).

Definition setIsPulsing (b : bool) (u : display) : display :=
  mkDisplay (viewCount u) b (clock u) (timers u) (display_console u).

(** [setTimeout(() => setIsPulsing(b), delay)] *)
Definition setTimeout (b : bool) (delay : Z) (u : display) : display :=
  mkDisplay (viewCount u) (isPulsing u) (clock u)
            (timers u ++ [(clock u + delay, b)]) (display_console u).

(** Lines 135-148: the callback for a snapshot of the counter document.
    The effect is re-registered whenever [viewCount] changes, so the
    [viewCount] the callback compares with is the displayed one. *)
Definition onSnapshot_next (snap : option document) (u : display) : display :=
  match snap with
  | Some data =>
      let newCount := js_or (field data "count") (JNum 0) in
      let u' :=
        if js_strict_neq newCount (viewCount u)
           && js_strict_neq (viewCount u) (JNum 0)
        then setTimeout false 500 (setIsPulsing true u)
        else u in
      setViewCount newCount u'
  | None => setViewCount (JNum 0) u
  end.

(** Lines 149-151: the error callback. *)
Definition onSnapshot_error (error : exn) (u : display) : display :=
  mkDisplay (viewCount u) (isPulsing u) (clock u) (timers u)
            (display_console u ++ [("Error listening to view count:", error)]).

(** Time passes: every timer that has come due runs, in registration order,
    and is removed. *)
Definition fire (due : list (Z * bool)) (u : display) : display :=
  fold_left (λ acc t, setIsPulsing t.2 acc) due u.

Definition advance (dt : Z) (u : display) : display :=
  let now := clock u + dt in
  let due := filter (λ t, t.1 ≤ now) (timers u) in
  let rest := filter (λ t, ¬ t.1 ≤ now) (timers u) in
  let u' := fire due u in
  mkDisplay (viewCount u') (isPulsing u') now rest (display_console u').

(** The write of the counter document and the write of the visitor record,
    as lines 109-112 and 115-118 build them. *)
Definition counter_update (p : page) (currentCount : jsval) : document :=
  {[ "count" := js_add currentCount (JNum 1);
     "lastUpdate" := JStr (iso_count p) ]}.

Definition visitor_record (p : page) : document :=
  {[ "firstVisit" := JStr (iso_visit p);
     "userAgent" := JStr (userAgent p) ]}.

(** What line 121 logs for a rejected store request. *)
Definition tracking_error (code : string) : string * exn :=
  ("Error tracking view:", FirestoreError code).

(** ** What a page load can do *)

(** The possible courses of [trackPageView], one constructor for each: the
    world before, and the settlement of the promise with the world after. *)
Inductive page_load (g : option string) (p : page)
  : world → outcome unit * world → Prop :=
| load_not_ready w :
    isAuthReady p = false ∨ db p = None →
    page_load g p w (Returns tt, w)
| load_no_identifier w e st' :
    isAuthReady p = true → db p = Some FirestoreHandle →
    getUniqueVisitorId p (local w) = (Throws e, st') →
    page_load g p w (Throws e, mkWorld st' (remote w) (console w))
| load_visitor_read_rejected st st' d f tr c id code :
    isAuthReady p = true → db p = Some FirestoreHandle →
    getUniqueVisitorId p st = (Returns id, st') →
    f (length tr) = Some code →
    page_load g p (mkWorld st (mkBackend d f tr) c)
      (Returns tt,
       mkWorld st'
         (mkBackend d f (tr ++ [(GetDoc (visitor_ref g id), Some code)]))
         (c ++ [tracking_error code]))
| load_known st st' d f tr c id x :
    isAuthReady p = true → db p = Some FirestoreHandle →
    getUniqueVisitorId p st = (Returns id, st') →
    f (length tr) = None →
    d !! visitor_ref g id = Some x →
    page_load g p (mkWorld st (mkBackend d f tr) c)
      (Returns tt,
       mkWorld st'
         (mkBackend d f (tr ++ [(GetDoc (visitor_ref g id), None)])) c)
| load_counter_read_rejected st st' d f tr c id code :
    isAuthReady p = true → db p = Some FirestoreHandle →
    getUniqueVisitorId p st = (Returns id, st') →
    f (length tr) = None →
    d !! visitor_ref g id = None →
    f (S (length tr)) = Some code →
    page_load g p (mkWorld st (mkBackend d f tr) c)
      (Returns tt,
       mkWorld st'
         (mkBackend d f (tr ++ [(GetDoc (visitor_ref g id), None);
                                (GetDoc (counter_ref g), Some code)]))
         (c ++ [tracking_error code]))
| load_counter_write_rejected st st' d f tr c id code :
    isAuthReady p = true → db p = Some FirestoreHandle →
    getUniqueVisitorId p st = (Returns id, st') →
    f (length tr) = None →
    d !! visitor_ref g id = None →
    f (S (length tr)) = None →
    f (S (S (length tr))) = Some code →
    page_load g p (mkWorld st (mkBackend d f tr) c)
      (Returns tt,
       mkWorld st'
         (mkBackend d f
            (tr ++ [(GetDoc (visitor_ref g id), None);
                    (GetDoc (counter_ref g), None);
                    (SetDoc (counter_ref g)
                            (counter_update p (counter_value g d)) true,
                     Some code)]))
         (c ++ [tracking_error code]))
| load_visitor_write_rejected st st' d f tr c id code :
    isAuthReady p = true → db p = Some FirestoreHandle →
    getUniqueVisitorId p st = (Returns id, st') →
    f (length tr) = None →
    d !! visitor_ref g id = None →
    f (S (length tr)) = None →
    f (S (S (length tr))) = None →
    f (S (S (S (length tr)))) = Some code →
    page_load g p (mkWorld st (mkBackend d f tr) c)
      (Returns tt,
       mkWorld st'
         (mkBackend
            (<[counter_ref g :=
                 written (d !! counter_ref g)
                         (counter_update p (counter_value g d)) true]> d) f
            (tr ++ [(GetDoc (visitor_ref g id), None);
                    (GetDoc (counter_ref g), None);
                    (SetDoc (counter_ref g)
                            (counter_update p (counter_value g d)) true, None);
                    (SetDoc (visitor_ref g id) (visitor_record p) false,
                     Some code)]))
         (c ++ [tracking_error code]))
| load_counted st st' d f tr c id :
    isAuthReady p = true → db p = Some FirestoreHandle →
    getUniqueVisitorId p st = (Returns id, st') →
    f (length tr) = None →
    d !! visitor_ref g id = None →
    f (S (length tr)) = None →
    f (S (S (length tr))) = None →
    f (S (S (S (length tr)))) = None →
    page_load g p (mkWorld st (mkBackend d f tr) c)
      (Returns tt,
       mkWorld st'
         (mkBackend
            (<[visitor_ref g id := visitor_record p]>
               (<[counter_ref g :=
                    written (d !! counter_ref g)
                            (counter_update p (counter_value g d)) true]> d)) f
            (tr ++ [(GetDoc (visitor_ref g id), None);
                    (GetDoc (counter_ref g), None);
                    (SetDoc (counter_ref g)
                            (counter_update p (counter_value g d)) true, None);
                    (SetDoc (visitor_ref g id) (visitor_record p) false, None)]))
         c).

(** ** Several calls in one browser *)

(** Successive calls of [getUniqueVisitorId] in one browser; each call has
    its own random digits and clock reading. *)
Fixpoint getUniqueVisitorId_calls (ps : list page) (st : Storage)
  : list (outcome string) * Storage :=
  match ps with
  | [] => ([], st)
  | p :: ps' =>
      let '(r, st') := getUniqueVisitorId p st in
      let '(rs, st'') := getUniqueVisitorId_calls ps' st' in
      (r :: rs, st'')
  end.

(** Some storage call that [getUniqueVisitorId] makes is refused: the read,
    or the write it needs when the read finds no identifier. *)
Definition storage_call_throws (st : Storage) : bool :=
  getItem_throws st
  || (no_visitor_id (items st !! visitor_key) && setItem_throws st).

(** ** Sample inputs *)

Definition empty_storage : Storage := mkStorage ∅ false false [].

Definition blocked_storage : Storage := mkStorage ∅ true true [].

Definition full_storage : Storage := mkStorage ∅ false true [].

Definition sample_page (r : string) (t : Z) : page :=
  mkPage true (Some FirestoreHandle) r t
         "2024-05-01T10:00:00.000Z" "2024-05-01T10:00:00.050Z" "Mozilla/5.0".

Definition no_faults : nat → option string := λ _, None.

(** The store rejects its [k]-th request and no other. *)
Definition fault_only (k : nat) (code : string) : nat → option string :=
  λ n, if bool_decide (n = k) then Some code else None.

Definition fresh_world (st : Storage) (d : documents)
    (faults : nat → option string) : world :=
  mkWorld st (mkBackend d faults []) [].

Definition alice : page := sample_page "0.4fzyo82mvyr" 1714557600000.

Definition alice_id : string := "visitor_4fzyo82mv_1714557600000".

Definition bob : page := sample_page "0.k3j9x2mq7ab" 1714557600100.

(** A browser that already holds the identifier ["v1"]. *)
Definition storage_v1 : Storage :=
  mkStorage {[ visitor_key := "v1" ]} false false [].

(** A counter at 7 that carries a field the program never writes. *)
Definition counter_seven : document :=
  {[ "count" := JNum 7;
     "lastUpdate" := JStr "2024-04-30T08:00:00.000Z";
     "owner" := JStr "siraw" ]}.

(** A store in which ["v1"] has been counted. *)
Definition store_seven : documents :=
  {[ counter_ref None := counter_seven;
     visitor_ref None "v1" :=
       {[ "firstVisit" := JStr "2024-04-30T08:00:00.000Z";
          "userAgent" := JStr "Mozilla/5.0" ]} ]}.

(** A display that shows 5, with nothing pending. *)
Definition showing_five : display := mkDisplay (JNum 5) false 1000 [] [].

(** The character occurs in the string. *)
Fixpoint occurs (c : Ascii.ascii) (s : string) : bool :=
  match s with
  | EmptyString => false
  | String c' s' => bool_decide (c = c') || occurs c s'
  end.

(** A string that [doc] takes as one path segment: it is not empty and has
    no slash.  [doc] splits its arguments at slashes, drops empty segments
    and throws when the number of segments is odd; on arguments that are
    single segments it returns the path made of them, as [doc] above does. *)
Definition single_segment (s : string) : Prop :=
  s ≠ "" ∧ occurs "/"%char s = false.

(** [Number.isSafeInteger]: the integers a number holds exactly, and to
    which 1 is added exactly. *)
Definition safe_integer (z : Z) : Prop :=
  - (2 ^ 53 - 1) ≤ z ≤ 2 ^ 53 - 1.

(** ** The session *)

(** The user object handed to the listener of [onAuthStateChanged]. *)
Inductive User : Type := FirebaseUser (uid : string).

(** The sign-in calls of lines 79 and 81. *)
Inductive sign_in : Type :=
| SignInWithCustomToken (token : jsval)
| SignInAnonymously.

(** Line 14: the global [__initial_auth_token] when its type is not
    ['undefined'], [null] otherwise. *)
Definition initialAuthToken (initial_auth_token_global : option jsval) : jsval :=
  match initial_auth_token_global with
  | None | Some JUndefined => JNull
  | Some token => token
  end.

(** Lines 75-83, the listener: the value of [isAuthReady] it leaves and the
    sign-in it starts. *)
Definition onAuthStateChanged_next (token_global : option jsval)
    (user : option User) (isAuthReady : bool) : bool * option sign_in :=
  match user with
  | Some _ => (true, None)
  | None =>
      if js_truthy (initialAuthToken token_global)
      then (isAuthReady, Some (SignInWithCustomToken (initialAuthToken token_global)))
      else (isAuthReady, Some SignInAnonymously)
  end.

(** The listener called for one auth state after the other, from the
    initial [isAuthReady] of line 47: the final flag and the sign-ins
    started, oldest first. *)
Fixpoint auth_notifications (token_global : option jsval)
    (users : list (option User)) (isAuthReady : bool) : bool * list sign_in :=
  match users with
  | [] => (isAuthReady, [])
  | user :: rest =>
      let '(ready, call) := onAuthStateChanged_next token_global user isAuthReady in
      let '(final, calls) := auth_notifications token_global rest ready in
      (final, option_list call ++ calls)
  end.

(** Lines 65-89, the initialisation effect.  [sdk] is the outcome of
    [initializeApp], [getFirestore] and [getAuth]; [listen] is the outcome of
    registering the listener.  The result is the [db] state, whether the
    listener is registered, and what was logged. *)
Definition initialization (sdk : outcome Firestore) (listen : outcome unit)
  : option Firestore * bool * list (string * exn) :=
  match sdk with
  | Throws e => (None, false, [("Firebase Initialization Error:", e)])
  | Returns firestoreDb =>
      match listen with
      | Throws e => (Some firestoreDb, false, [("Firebase Initialization Error:", e)])
      | Returns _ => (Some firestoreDb, true, [])
      end
  end.

(** The [isAuthReady] state once the page has been initialised and the auth
    states [users] have been reported; nothing is reported to a listener that
    was not registered. *)
Definition session_ready (token_global : option jsval) (sdk : outcome Firestore)
    (listen : outcome unit) (users : list (option User)) : bool :=
  if (initialization sdk listen).1.2
  then (auth_notifications token_global users false).1
  else false.

(** A page load in the session state [isAuthReady], [db]. *)
Definition with_session (ready : bool) (firestoreDb : option Firestore)
    (p : page) : page :=
  mkPage ready firestoreDb (random36 p) (date_now p) (iso_count p)
         (iso_visit p) (userAgent p).

(** Lines 129-135: the document the subscription effect listens to, when it
    subscribes at all. *)
Definition subscription_ref (g : option string) (ready : bool)
    (firestoreDb : option Firestore) : option docref :=
  if negb (bool_decide (is_Some firestoreDb)) || negb ready then None
  else getCountDocRef g firestoreDb.

(** ** The display over time *)

Inductive display_event : Type :=
| Snapshot (snap : option document)
| SnapshotError (error : exn)
| Elapse (ms : nat).

Definition display_step (u : display) (ev : display_event) : display :=
  match ev with
  | Snapshot snap => onSnapshot_next snap u
  | SnapshotError error => onSnapshot_error error u
  | Elapse ms => advance (Z.of_nat ms) u
  end.

Definition display_run (evs : list display_event) (u : display) : display :=
  fold_left display_step evs u.

(** Line 202, [viewCount.toLocaleString()]: the call is a [TypeError] on
    [undefined] and on [null]. *)
Definition toLocaleString_defined (v : jsval) : bool :=
  match v with
  | JUndefined | JNull => false
  | _ => true
  end.

(** What every display reached from the initial one satisfies: the
    displayed count is 0 or truthy; every pending timer clears the flag and
    is due within the next 500 ms; and while the flag is set some timer is
    pending. *)
Definition display_ok (u : display) : Prop :=
  (viewCount u = JNum 0 ∨ js_truthy (viewCount u) = true)
  ∧ Forall (λ t, t.2 = false ∧ clock u < t.1 ≤ clock u + 500) (timers u)
  ∧ (isPulsing u = true → timers u ≠ []).

(** ** Visits by known identifiers *)

(** The visit is made with a ready session, a storage that hands out [id],
    and a store that serves every request. *)
Definition served_visit (v : visit) (id : string) : Prop :=
  isAuthReady (visit_page v) = true
  ∧ db (visit_page v) = Some FirestoreHandle
  ∧ (getUniqueVisitorId (visit_page v) (visit_storage v)).1 = Returns id
  ∧ ∀ k, visit_faults v k = None.

(** The counter is a number and is not below the number of records. *)
Definition counter_at_least_records (g : option string) (d : documents) : Prop :=
  ∃ c, counter_value g d = JNum c ∧ Z.of_nat (visitor_records g d) ≤ c.

(** A browser whose entry under the key is the empty string. *)
Definition storage_blank : Storage :=
  mkStorage {[ visitor_key := "" ]} false false [].

(** A counter document without a [count] field, and a store holding it. *)
Definition counter_no_count : document :=
  {[ "lastUpdate" := JStr "2024-04-30T08:00:00.000Z" ]}.

Definition store_no_count : documents :=
  {[ counter_ref None := counter_no_count ]}.

(** A store whose count is [NaN]. *)
Definition store_nan : documents :=
  {[ counter_ref None := {[ "count" := JNaN ]} ]}.

(** A snapshot of a counter document holding the count. *)
Definition count_snapshot (n : Z) : display_event :=
  Snapshot (Some {[ "count" := JNum n ]}).

Definition bob_id : string := "visitor_k3j9x2mq7_1714557600100".

(** Visits by two browsers that start without an identifier. *)
Definition alice_visit (faults : nat → option string) : visit :=
  mkVisit alice empty_storage faults.

Definition bob_visit (faults : nat → option string) : visit :=
  mkVisit bob empty_storage faults.

(** * The visitor identifier *)

Lemma fresh_visitor_id_nonempty p : fresh_visitor_id p ≠ "".
Proof. unfold fresh_visitor_id. simpl. discriminate. Qed.

(** A stored, non-empty identifier is returned as it is and nothing is
    written. *)
Lemma getUniqueVisitorId_stored p st id :
  getItem_throws st = false →
  items st !! visitor_key = Some id →
  id ≠ "" →
  getUniqueVisitorId p st = (Returns id, st).
Proof.
  intros Hget Hid Hne. unfold getUniqueVisitorId, getItem.
  rewrite Hget, Hid. simpl.
  by rewrite bool_decide_eq_false_2.
Qed.

(** With nothing stored, the call makes up an identifier and stores it. *)
Lemma getUniqueVisitorId_first p st :
  getItem_throws st = false →
  setItem_throws st = false →
  no_visitor_id (items st !! visitor_key) = true →
  getUniqueVisitorId p st =
    (Returns (fresh_visitor_id p),
     mkStorage (<[visitor_key := fresh_visitor_id p]> (items st)) false false
               (setItem_calls st ++ [(visitor_key, fresh_visitor_id p)])).
Proof.
  intros Hget Hset Hno. unfold getUniqueVisitorId, getItem, setItem.
  by rewrite Hget, Hno, Hset.
Qed.

Lemma getUniqueVisitorId_calls_stored ps st id :
  getItem_throws st = false →
  items st !! visitor_key = Some id →
  id ≠ "" →
  getUniqueVisitorId_calls ps st = (replicate (length ps) (Returns id), st).
Proof.
  intros Hget Hid Hne. induction ps as [|p ps IH]; [done|].
  simpl. rewrite (getUniqueVisitorId_stored p st id) by done.
  by rewrite IH.
Qed.

(** When none of its storage calls is refused, the function returns a
    non-empty identifier. *)
Lemma getUniqueVisitorId_returns p st :
  storage_call_throws st = false →
  ∃ id st', getUniqueVisitorId p st = (Returns id, st') ∧ id ≠ "".
Proof.
  unfold storage_call_throws, getUniqueVisitorId, getItem, setItem.
  intros H. apply orb_false_iff in H as [-> H]. simpl in *.
  destruct (no_visitor_id (items st !! visitor_key)) eqn:Hno; simpl in H.
  - rewrite H. eexists _, _. split; [done|]. apply fresh_visitor_id_nonempty.
  - destruct (items st !! visitor_key) as [s|]; [|done]. simpl in *.
    eexists _, _. split; [done|]. by apply bool_decide_eq_false in Hno.
Qed.

(** Once a call has returned an identifier, the next call in the same
    browser returns the same one and leaves the storage alone. *)
Lemma getUniqueVisitorId_again p p2 st st' id :
  getUniqueVisitorId p st = (Returns id, st') →
  getUniqueVisitorId p2 st' = (Returns id, st').
Proof.
  unfold getUniqueVisitorId at 1. unfold getItem, setItem.
  destruct (getItem_throws st) eqn:Hget; [done|].
  destruct (no_visitor_id (items st !! visitor_key)) eqn:Hno.
  - destruct (setItem_throws st) eqn:Hset; [done|]. intros [= <- <-].
    apply getUniqueVisitorId_stored; simpl;
      [done | apply lookup_insert_eq | apply fresh_visitor_id_nonempty].
  - destruct (items st !! visitor_key) as [s|] eqn:Hs; [|done].
    simpl. intros [= <- <-].
    apply getUniqueVisitorId_stored; [done..|].
    by apply bool_decide_eq_false in Hno.
Qed.

Lemma getUniqueVisitorId_throws p st :
  storage_call_throws st = true →
  ∃ e, getUniqueVisitorId p st = (Throws e, st).
Proof.
  unfold storage_call_throws, getUniqueVisitorId, getItem, setItem.
  intros H. destruct (getItem_throws st); [by eexists|]. simpl in *.
  apply andb_true_iff in H as [-> ->]. by eexists.
Qed.

(** * Store requests, one step at a time *)

Lemma getDoc_ok r st d f tr c :
  f (length tr) = None →
  getDoc (Some r) (mkWorld st (mkBackend d f tr) c)
  = (Returns (d !! r), mkWorld st (mkBackend d f (tr ++ [(GetDoc r, None)])) c).
Proof. intros H. unfold getDoc, receive. simpl. by rewrite H. Qed.

Lemma getDoc_rejected r st d f tr c code :
  f (length tr) = Some code →
  getDoc (Some r) (mkWorld st (mkBackend d f tr) c)
  = (Throws (FirestoreError code),
     mkWorld st (mkBackend d f (tr ++ [(GetDoc r, Some code)])) c).
Proof. intros H. unfold getDoc, receive. simpl. by rewrite H. Qed.

Lemma setDoc_ok r data merge st d f tr c :
  f (length tr) = None →
  setDoc (Some r) data merge (mkWorld st (mkBackend d f tr) c)
  = (Returns tt,
     mkWorld st (mkBackend (<[r := written (d !! r) data merge]> d) f
                           (tr ++ [(SetDoc r data merge, None)])) c).
Proof. intros H. unfold setDoc, receive. simpl. by rewrite H. Qed.

Lemma setDoc_rejected r data merge st d f tr c code :
  f (length tr) = Some code →
  setDoc (Some r) data merge (mkWorld st (mkBackend d f tr) c)
  = (Throws (FirestoreError code),
     mkWorld st (mkBackend d f (tr ++ [(SetDoc r data merge, Some code)])) c).
Proof. intros H. unfold setDoc, receive. simpl. by rewrite H. Qed.

Lemma bind_returns {A B} (m : M A) (k : A → M B) w a w' :
  m w = (Returns a, w') → bind m k w = k a w'.
Proof. intros H. unfold bind. by rewrite H. Qed.

Lemma bind_throws {A B} (m : M A) (k : A → M B) w e w' :
  m w = (Throws e, w') → bind m k w = (Throws e, w').
Proof. intros H. unfold bind. by rewrite H. Qed.

Lemma try_catch_returns {A} (m : M A) h w a w' :
  m w = (Returns a, w') → try_catch m h w = (Returns a, w').
Proof. intros H. unfold try_catch. by rewrite H. Qed.

Lemma try_catch_throws {A} (m : M A) h w e w' :
  m w = (Throws e, w') → try_catch m h w = h e w'.
Proof. intros H. unfold try_catch. by rewrite H. Qed.

Lemma length_snoc {A} (l : list A) x : length (l ++ [x]) = S (length l).
Proof. rewrite length_app. simpl. lia. Qed.

(** * One page load, case by case *)

Section ProtocolCases.

Variable g : option string.

(** The session is not ready: nothing happens. *)
Lemma trackPageView_not_ready p w :
  isAuthReady p = false ∨ db p = None →
  trackPageView g p w = (Returns tt, w).
Proof.
  intros [H|H]; unfold trackPageView; rewrite H; [done|].
  by rewrite orb_true_r.
Qed.

(** The identifier cannot be obtained: the promise rejects. *)
Lemma trackPageView_no_identifier p w e st' :
  isAuthReady p = true → db p = Some FirestoreHandle →
  getUniqueVisitorId p (local w) = (Throws e, st') →
  trackPageView g p w = (Throws e, mkWorld st' (remote w) (console w)).
Proof.
  intros Hready Hdb Hid. unfold trackPageView. rewrite Hready, Hdb. simpl.
  unfold bind, callGetUniqueVisitorId. by rewrite Hid.
Qed.

Section Ready.

Variables (p : page) (id : string).
Variables (st st' : Storage) (d : documents) (f : nat → option string).
Variables (tr : list (request * option string)) (c : list (string * exn)).

Hypothesis Hready : isAuthReady p = true.
Hypothesis Hdb : db p = Some FirestoreHandle.
Hypothesis Hid : getUniqueVisitorId p st = (Returns id, st').

Local Abbreviation w := (mkWorld st (mkBackend d f tr) c).
Local Abbreviation n := (length tr).
Local Abbreviation cur := (counter_value g d).

Lemma trackPageView_ready :
  trackPageView g p w =
    try_catch
      (visitorSnap <~ getDoc (Some (visitor_ref g id)) ;;
       match visitorSnap with
       | None =>
           countSnap <~ getDoc (Some (counter_ref g)) ;;
           let currentCount :=
             match countSnap with
             | Some data => field data "count"
             | None => JNum 0
             end in
           setDoc (Some (counter_ref g)) (counter_update p currentCount) true ;;;
           setDoc (Some (visitor_ref g id)) (visitor_record p) false
       | Some _ => ret tt
       end)
      (λ error, console_error "Error tracking view:" error)
      (mkWorld st' (mkBackend d f tr) c).
Proof.
  unfold trackPageView. rewrite Hready, Hdb. simpl.
  unfold bind at 1. unfold callGetUniqueVisitorId. simpl. by rewrite Hid.
Qed.

(** The store rejects the read of the visitor record. *)
Lemma trackPageView_visitor_read_rejected code :
  f n = Some code →
  trackPageView g p w =
    (Returns tt,
     mkWorld st'
       (mkBackend d f (tr ++ [(GetDoc (visitor_ref g id), Some code)]))
       (c ++ [tracking_error code])).
Proof.
  intros F0. rewrite trackPageView_ready.
  erewrite try_catch_throws; cycle 1.
  { erewrite bind_throws; [reflexivity|]. by apply getDoc_rejected. }
  reflexivity.
Qed.

(** The visitor record exists. *)
Lemma trackPageView_known x :
  f n = None → d !! visitor_ref g id = Some x →
  trackPageView g p w =
    (Returns tt,
     mkWorld st' (mkBackend d f (tr ++ [(GetDoc (visitor_ref g id), None)])) c).
Proof.
  intros F0 Hx. rewrite trackPageView_ready.
  erewrite try_catch_returns; [reflexivity|].
  erewrite bind_returns; [|by apply getDoc_ok]. by rewrite Hx.
Qed.

(** The store rejects the read of the counter. *)
Lemma trackPageView_counter_read_rejected code :
  f n = None → d !! visitor_ref g id = None → f (S n) = Some code →
  trackPageView g p w =
    (Returns tt,
     mkWorld st'
       (mkBackend d f (tr ++ [(GetDoc (visitor_ref g id), None);
                              (GetDoc (counter_ref g), Some code)]))
       (c ++ [tracking_error code])).
Proof.
  intros F0 Hx F1. rewrite trackPageView_ready.
  erewrite try_catch_throws; cycle 1.
  { erewrite bind_returns; [|by apply getDoc_ok]. rewrite Hx.
    erewrite bind_throws; [reflexivity|].
    apply getDoc_rejected. by rewrite length_snoc. }
  unfold console_error. simpl. by rewrite <- app_assoc.
Qed.

(** The store rejects the write of the counter. *)
Lemma trackPageView_counter_write_rejected code :
  f n = None → d !! visitor_ref g id = None → f (S n) = None →
  f (S (S n)) = Some code →
  trackPageView g p w =
    (Returns tt,
     mkWorld st'
       (mkBackend d f
          (tr ++ [(GetDoc (visitor_ref g id), None);
                  (GetDoc (counter_ref g), None);
                  (SetDoc (counter_ref g) (counter_update p cur) true, Some code)]))
       (c ++ [tracking_error code])).
Proof.
  intros F0 Hx F1 F2. rewrite trackPageView_ready.
  erewrite try_catch_throws; cycle 1.
  { erewrite bind_returns; [|by apply getDoc_ok]. rewrite Hx.
    erewrite bind_returns; [|apply getDoc_ok; by rewrite length_snoc].
    erewrite bind_throws; [reflexivity|].
    apply setDoc_rejected. by rewrite !length_snoc. }
  unfold console_error. simpl. by rewrite <- !app_assoc.
Qed.

(** The store rejects the write of the visitor record: the counter has
    been written and stays written. *)
Lemma trackPageView_visitor_write_rejected code :
  f n = None → d !! visitor_ref g id = None → f (S n) = None →
  f (S (S n)) = None → f (S (S (S n))) = Some code →
  trackPageView g p w =
    (Returns tt,
     mkWorld st'
       (mkBackend
          (<[counter_ref g :=
               written (d !! counter_ref g) (counter_update p cur) true]> d) f
          (tr ++ [(GetDoc (visitor_ref g id), None);
                  (GetDoc (counter_ref g), None);
                  (SetDoc (counter_ref g) (counter_update p cur) true, None);
                  (SetDoc (visitor_ref g id) (visitor_record p) false, Some code)]))
       (c ++ [tracking_error code])).
Proof.
  intros F0 Hx F1 F2 F3. rewrite trackPageView_ready.
  erewrite try_catch_throws; cycle 1.
  { erewrite bind_returns; [|by apply getDoc_ok]. rewrite Hx.
    erewrite bind_returns; [|apply getDoc_ok; by rewrite length_snoc].
    erewrite bind_returns; [|apply setDoc_ok; by rewrite !length_snoc].
    apply setDoc_rejected. by rewrite !length_snoc. }
  unfold console_error. simpl. by rewrite <- !app_assoc.
Qed.

(** Every request is served. *)
Lemma trackPageView_counted :
  f n = None → d !! visitor_ref g id = None → f (S n) = None →
  f (S (S n)) = None → f (S (S (S n))) = None →
  trackPageView g p w =
    (Returns tt,
     mkWorld st'
       (mkBackend
          (<[visitor_ref g id := visitor_record p]>
             (<[counter_ref g :=
                  written (d !! counter_ref g) (counter_update p cur) true]> d)) f
          (tr ++ [(GetDoc (visitor_ref g id), None);
                  (GetDoc (counter_ref g), None);
                  (SetDoc (counter_ref g) (counter_update p cur) true, None);
                  (SetDoc (visitor_ref g id) (visitor_record p) false, None)]))
       c).
Proof.
  intros F0 Hx F1 F2 F3. rewrite trackPageView_ready.
  erewrite try_catch_returns; cycle 1.
  { erewrite bind_returns; [|by apply getDoc_ok]. rewrite Hx.
    erewrite bind_returns; [|apply getDoc_ok; by rewrite length_snoc].
    erewrite bind_returns; [|apply setDoc_ok; by rewrite !length_snoc].
    apply setDoc_ok. by rewrite !length_snoc. }
  simpl. by rewrite <- !app_assoc.
Qed.

End Ready.

End ProtocolCases.

(** * Every page load takes one of the listed courses *)

Lemma trackPageView_page_load g p w : page_load g p w (trackPageView g p w).
Proof.
  destruct (isAuthReady p) eqn:Hready; cycle 1.
  { rewrite trackPageView_not_ready by auto. constructor; auto. }
  destruct (db p) as [[]|] eqn:Hdb; cycle 1.
  { rewrite trackPageView_not_ready by auto. constructor; auto. }
  destruct (getUniqueVisitorId p (local w)) as [[id|e] st'] eqn:Hid; cycle 1.
  { erewrite trackPageView_no_identifier by done. by constructor. }
  destruct w as [st [d f tr] c]. simpl in Hid.
  destruct (f (length tr)) as [code|] eqn:F0.
  { erewrite trackPageView_visitor_read_rejected by done. by constructor. }
  destruct (d !! visitor_ref g id) as [x|] eqn:Hx.
  { erewrite trackPageView_known by done. by econstructor. }
  destruct (f (S (length tr))) as [code|] eqn:F1.
  { erewrite trackPageView_counter_read_rejected by done. by constructor. }
  destruct (f (S (S (length tr)))) as [code|] eqn:F2.
  { erewrite trackPageView_counter_write_rejected by done. by constructor. }
  destruct (f (S (S (S (length tr))))) as [code|] eqn:F3.
  { erewrite trackPageView_visitor_write_rejected by done. by constructor. }
  erewrite trackPageView_counted by done. by constructor.
Qed.

(** * Counting the records *)

Section Records.

Variable g : option string.

Lemma counter_ref_not_visitor : ¬ is_visitor_ref g (counter_ref g).
Proof. intros [_ H]. simpl in H. congruence. Qed.

Lemma visitor_ref_is_visitor id : is_visitor_ref g (visitor_ref g id).
Proof. by split. Qed.

Lemma visitor_ref_not_counter id : visitor_ref g id ≠ counter_ref g.
Proof. unfold visitor_ref, counter_ref. congruence. Qed.

Lemma visitor_records_insert_counter (d : documents) x :
  visitor_records g (<[counter_ref g := x]> d) = visitor_records g d.
Proof.
  unfold visitor_records. rewrite map_filter_insert_not; [done|].
  intros y. apply counter_ref_not_visitor.
Qed.

Lemma visitor_records_insert_new (d : documents) id x :
  d !! visitor_ref g id = None →
  visitor_records g (<[visitor_ref g id := x]> d) = S (visitor_records g d).
Proof.
  intros Hnone. unfold visitor_records.
  rewrite map_filter_insert_True by apply visitor_ref_is_visitor.
  apply map_size_insert_None. by apply map_lookup_filter_None_2; left.
Qed.

Lemma counter_value_insert_counter (d : documents) x :
  counter_value g (<[counter_ref g := x]> d) = field x "count".
Proof. unfold counter_value. by rewrite lookup_insert_eq. Qed.

Lemma counter_value_insert_visitor (d : documents) id x :
  counter_value g (<[visitor_ref g id := x]> d) = counter_value g d.
Proof.
  unfold counter_value.
  by rewrite lookup_insert_ne by apply visitor_ref_not_counter.
Qed.

(** A merged counter write stores the new count. *)
Lemma field_count_written old p v :
  field (written old (counter_update p v) true) "count" = js_add v (JNum 1).
Proof.
  unfold field, written, counter_update.
  erewrite lookup_union_Some_l; [done|]. by rewrite lookup_insert_eq.
Qed.

(** A merged counter write keeps every field it does not set. *)
Lemma written_merge_other old p v k :
  k ≠ "count" → k ≠ "lastUpdate" →
  written (Some old) (counter_update p v) true !! k = old !! k.
Proof.
  intros H1 H2. unfold written, counter_update.
  rewrite lookup_union_r; [done|].
  rewrite lookup_insert_ne by done. by rewrite lookup_singleton_ne.
Qed.

End Records.

(** Case analysis on a page load: bring the projections of the explicit
    worlds to normal form and identify the identifiers of two calls on the
    same storage. *)
Ltac load_cases :=
  cbn [fst snd local remote docs fault_at trace console] in *;
  repeat match goal with
  | H1 : getUniqueVisitorId ?p ?st = _, H2 : getUniqueVisitorId ?p ?st = _ |- _ =>
      rewrite H1 in H2
  end;
  simplify_eq.

(** * The claims about the identifier *)

(** C4: in a browser whose storage works and holds no identifier yet, any
    number of calls of [getUniqueVisitorId] all return the identifier made up
    by the first one; the first call stores it under
    [siraw_unique_visitor_id], and the storage after all the calls is the
    storage after the first: no later call writes. *)
Theorem getUniqueVisitorId_same_identifier
    (p : page) (ps : list page) (st : Storage) :
  getItem_throws st = false →
  setItem_throws st = false →
  items st !! visitor_key = None →
  let id := fresh_visitor_id p in
  let first := getUniqueVisitorId p st in
  let all := getUniqueVisitorId_calls (p :: ps) st in
  first.1 = Returns id
  ∧ items first.2 !! "siraw_unique_visitor_id" = Some id
  ∧ setItem_calls first.2 = setItem_calls st ++ [("siraw_unique_visitor_id", id)]
  ∧ all.1 = replicate (S (length ps)) (Returns id)
  ∧ all.2 = first.2.
Proof.
  intros Hget Hset Hnone id first all.
  assert (Hfirst : first =
    (Returns id, mkStorage (<[visitor_key := id]> (items st)) false false
                           (setItem_calls st ++ [(visitor_key, id)]))).
  { apply getUniqueVisitorId_first; try done. by rewrite Hnone. }
  subst all. simpl. fold first. rewrite Hfirst. simpl.
  rewrite (getUniqueVisitorId_calls_stored ps _ id); simpl;
    [| done | apply lookup_insert_eq | apply fresh_visitor_id_nonempty ].
  repeat split; try done. apply lookup_insert_eq.
Qed.

(** * The claims about the protocol *)

Section ProtocolFacts.

Variable g : option string.

(** C7, as the code has it: [getUniqueVisitorId] fails exactly when a
    storage call it makes is refused.  It then throws, hands out no
    identifier and leaves the storage as it was; a page load whose session is
    ready rejects at that point, before any store request and without
    logging.  Whenever no storage call is refused it returns an
    identifier. *)
Theorem getUniqueVisitorId_storage_failure (p : page) (w : world) :
  (storage_call_throws (local w) = true →
     (∃ e, getUniqueVisitorId p (local w) = (Throws e, local w))
     ∧ (isAuthReady p = true → db p = Some FirestoreHandle →
        ∃ e, trackPageView g p w = (Throws e, w)))
  ∧ (storage_call_throws (local w) = false →
     ∃ id st', getUniqueVisitorId p (local w) = (Returns id, st') ∧ id ≠ "").
Proof.
  split; [|apply getUniqueVisitorId_returns].
  intros H. destruct (getUniqueVisitorId_throws p _ H) as [e He].
  split; [by exists e|]. intros Hready Hdb. exists e.
  unfold trackPageView. rewrite Hready, Hdb. simpl.
  unfold bind, callGetUniqueVisitorId. rewrite He. by destruct w.
Qed.

(** C1: a page load with a ready session, served by the store, for an
    identifier that has no visitor record while the counter document does not
    exist, the identifier and the app id being single path segments: the
    promise resolves, the counter document is created with count 1
    and the timestamp of the write, the visitor record of the identifier is
    created with the first-visit timestamp and the user agent, the store
    holds one visitor record more than before, and the store received one
    counter write and one visitor write, in this order, after the two
    reads. *)
Theorem trackPageView_counts_first_visitor
    (p : page) (w : world) (id : string) (st' : Storage) :
  isAuthReady p = true →
  db p = Some FirestoreHandle →
  getUniqueVisitorId p (local w) = (Returns id, st') →
  single_segment (appId g) →
  single_segment id →
  docs (remote w) !! visitor_ref g id = None →
  docs (remote w) !! counter_ref g = None →
  (∀ k, fault_at (remote w) k = None) →
  let w' := (trackPageView g p w).2 in
  let counter := {[ "count" := JNum 1; "lastUpdate" := JStr (iso_count p) ]} in
  let record := {[ "firstVisit" := JStr (iso_visit p);
                   "userAgent" := JStr (userAgent p) ]} in
  (trackPageView g p w).1 = Returns tt
  ∧ docs (remote w') !! counter_ref g = Some counter
  ∧ docs (remote w') !! visitor_ref g id = Some record
  ∧ docs (remote w')
    = <[visitor_ref g id := record]> (<[counter_ref g := counter]> (docs (remote w)))
  ∧ visitor_records g (docs (remote w')) = S (visitor_records g (docs (remote w)))
  ∧ trace (remote w')
    = trace (remote w) ++
      [(GetDoc (visitor_ref g id), None);
       (GetDoc (counter_ref g), None);
       (SetDoc (counter_ref g) counter true, None);
       (SetDoc (visitor_ref g id) record false, None)].
Proof.
  intros Hready Hdb Hid _ _ Hv Hc Hf w' counter record. subst w'.
  destruct w as [st [d f tr] c]. cbn [local remote docs fault_at trace] in *.
  rewrite (trackPageView_counted g p id st st' d f tr c) by done.
  assert (Hw : written (d !! counter_ref g)
                 (counter_update p (counter_value g d)) true = counter).
  { unfold counter_value. rewrite Hc. apply map_union_empty. }
  rewrite Hw. cbn [fst snd local remote docs fault_at trace].
  split_and!; try done.
  - rewrite lookup_insert_ne by apply visitor_ref_not_counter.
    apply lookup_insert_eq.
  - apply lookup_insert_eq.
  - rewrite visitor_records_insert_new.
    + by rewrite visitor_records_insert_counter.
    + by rewrite lookup_insert_ne by apply not_eq_sym, visitor_ref_not_counter.
  - unfold counter_value. by rewrite Hc.
Qed.

(** C2: a page load whose identifier already has a visitor record leaves
    every document of the store as it was, the counter with it; the only
    request the store may receive is the read of that visitor record. *)
Theorem trackPageView_known_visitor_writes_nothing
    (p : page) (w : world) (id : string) (st' : Storage) :
  getUniqueVisitorId p (local w) = (Returns id, st') →
  is_Some (docs (remote w) !! visitor_ref g id) →
  let w' := (trackPageView g p w).2 in
  docs (remote w') = docs (remote w)
  ∧ counter_value g (docs (remote w')) = counter_value g (docs (remote w))
  ∧ (trace (remote w') = trace (remote w)
     ∨ ∃ verdict,
         trace (remote w')
         = trace (remote w) ++ [(GetDoc (visitor_ref g id), verdict)]).
Proof.
  intros Hid [x Hx] w'. subst w'.
  destruct (trackPageView_page_load g p w); load_cases; split_and!; eauto.
Qed.

(** C6: whatever a page load does, a counter document that existed before
    still exists afterwards and every field of it other than [count] and
    [lastUpdate] holds what it held; every write of the counter document the
    store receives during the load asks for a merge. *)
Theorem trackPageView_counter_write_merges
    (p : page) (w : world) (old : document) (k : string) :
  docs (remote w) !! counter_ref g = Some old →
  k ≠ "count" →
  k ≠ "lastUpdate" →
  let w' := (trackPageView g p w).2 in
  (∃ new, docs (remote w') !! counter_ref g = Some new ∧ new !! k = old !! k)
  ∧ (∀ data merge verdict,
       (SetDoc (counter_ref g) data merge, verdict) ∈ requests_of_load g p w →
       merge = true).
Proof.
  intros Hold Hk1 Hk2 w'. subst w'. unfold requests_of_load.
  destruct (trackPageView_page_load g p w); load_cases;
    rewrite ?drop_app_length, ?drop_all.
  all: split;
    [| intros data merge verdict Hin;
       repeat (apply elem_of_cons in Hin as [Hin|Hin]; [by simplify_eq|]);
       by apply elem_of_nil in Hin ].
  all: try (by exists old).
  - exists (written (Some old) (counter_update p (counter_value g d)) true).
    rewrite Hold, lookup_insert_eq. split; [done|].
    by apply written_merge_other.
  - exists (written (Some old) (counter_update p (counter_value g d)) true).
    rewrite Hold, lookup_insert_ne by apply visitor_ref_not_counter.
    rewrite lookup_insert_eq. split; [done|].
    by apply written_merge_other.
Qed.

(** C8: when the store rejects a request of a page load, the promise of
    [trackPageView] still resolves, and the console has received exactly one
    more line, the error under the label of line 121; the documents are those
    the requests served before the rejection left.  The error callback of the
    subscription logs the error and changes neither the displayed count nor
    the pulse flag nor the timers. *)
Theorem store_errors_are_logged_and_swallowed (p : page) (w : world) :
  let w' := (trackPageView g p w).2 in
  (∀ req code,
     (req, Some code) ∈ requests_of_load g p w →
     (trackPageView g p w).1 = Returns tt
     ∧ console w' = console w ++ [("Error tracking view:", FirestoreError code)])
  ∧ (∀ error u,
       viewCount (onSnapshot_error error u) = viewCount u
       ∧ isPulsing (onSnapshot_error error u) = isPulsing u
       ∧ timers (onSnapshot_error error u) = timers u
       ∧ display_console (onSnapshot_error error u)
         = display_console u ++ [("Error listening to view count:", error)]).
Proof.
  intros w'. subst w'. split; [|done].
  intros req code. unfold requests_of_load.
  destruct (trackPageView_page_load g p w); load_cases;
    rewrite ?drop_app_length, ?drop_all; intros Hin;
    repeat (apply elem_of_cons in Hin as [Hin|Hin]; [by simplify_eq|]);
    by apply elem_of_nil in Hin.
Qed.

(** C9: for a new visitor, with an identifier and an app id that are
    single path segments and a count that, if it is an integer, stays a safe
    integer when incremented, the counter write is received before the
    visitor write.  When the store serves every request but rejects that
    visitor write, the promise resolves with the counter incremented and no visitor
    record for the identifier: nothing is rolled back.  The browser returns
    the same identifier on its next load, and that load, if served,
    increments the counter once more and creates the record. *)
Theorem trackPageView_no_rollback
    (p p2 : page) (w : world) (id : string) (st' : Storage) (code : string) :
  isAuthReady p = true → db p = Some FirestoreHandle →
  isAuthReady p2 = true → db p2 = Some FirestoreHandle →
  getUniqueVisitorId p (local w) = (Returns id, st') →
  single_segment (appId g) →
  single_segment id →
  docs (remote w) !! visitor_ref g id = None →
  let n := length (trace (remote w)) in
  fault_at (remote w) (n + 3)%nat = Some code →
  (∀ k, k ≠ (n + 3)%nat → fault_at (remote w) k = None) →
  let before := counter_value g (docs (remote w)) in
  (∀ c, before = JNum c → safe_integer (c + 1)) →
  let w1 := (trackPageView g p w).2 in
  let w2 := (trackPageView g p2 w1).2 in
  requests_of_load g p w
  = [(GetDoc (visitor_ref g id), None);
     (GetDoc (counter_ref g), None);
     (SetDoc (counter_ref g) (counter_update p before) true, None);
     (SetDoc (visitor_ref g id) (visitor_record p) false, Some code)]
  ∧ (trackPageView g p w).1 = Returns tt
  ∧ counter_value g (docs (remote w1)) = js_add before (JNum 1)
  ∧ docs (remote w1) !! visitor_ref g id = None
  ∧ getUniqueVisitorId p2 (local w1) = (Returns id, local w1)
  ∧ counter_value g (docs (remote w2)) = js_add (js_add before (JNum 1)) (JNum 1)
  ∧ is_Some (docs (remote w2) !! visitor_ref g id).
Proof.
  intros Hready Hdb Hready2 Hdb2 Hid _ _ Hv n Hbad Hgood before _ w1 w2.
  subst w2 w1 before n. unfold requests_of_load.
  destruct w as [st [d f tr] c].
  cbn [local remote docs fault_at trace] in *.
  pose proof (getUniqueVisitorId_again p p2 st st' id Hid) as Hid2.
  rewrite (trackPageView_visitor_write_rejected g p id st st' d f tr c
             Hready Hdb Hid code);
    [| apply Hgood; lia | done | apply Hgood; lia | apply Hgood; lia
     | rewrite <- Hbad; f_equal; lia ].
  cbn [fst snd local remote docs fault_at trace].
  set (d1 := <[counter_ref g := _]> d).
  assert (Hv1 : d1 !! visitor_ref g id = None).
  { subst d1. by rewrite lookup_insert_ne
      by apply not_eq_sym, visitor_ref_not_counter. }
  assert (Hc1 : counter_value g d1 = js_add (counter_value g d) (JNum 1)).
  { subst d1. rewrite counter_value_insert_counter. apply field_count_written. }
  rewrite (trackPageView_counted g p2 id st' st' d1 f _ _ Hready2 Hdb2 Hid2);
    [| apply Hgood; rewrite length_app; simpl; lia | done
     | apply Hgood; rewrite length_app; simpl; lia
     | apply Hgood; rewrite length_app; simpl; lia
     | apply Hgood; rewrite length_app; simpl; lia ].
  cbn [fst snd local remote docs fault_at trace].
  rewrite drop_app_length.
  split_and!; try done.
  - rewrite counter_value_insert_visitor, counter_value_insert_counter.
    by rewrite field_count_written, Hc1.
  - rewrite lookup_insert_eq. by eexists.
Qed.

(** One page load keeps the count equal to the number of records, unless
    the store rejects the write of a visitor record. *)
Lemma after_visit_keeps_count (v : visit) (d : documents) :
  count_matches_records g d →
  visitor_write_failed g (trace (remote (run_visit g v d).2)) = false →
  count_matches_records g (after_visit g v d).
Proof.
  unfold after_visit, run_visit, count_matches_records.
  intros Hinv Hok.
  remember (mkWorld (visit_storage v) (mkBackend d (visit_faults v) []) [])
    as w eqn:Hw.
  destruct (trackPageView_page_load g (visit_page v) w); load_cases; try done.
  - simpl in Hok.
    by rewrite bool_decide_eq_true_2 in Hok by apply visitor_ref_is_visitor.
  - rewrite counter_value_insert_visitor, counter_value_insert_counter.
    rewrite field_count_written, Hinv.
    rewrite visitor_records_insert_new, visitor_records_insert_counter.
    + simpl. f_equal. lia.
    + by rewrite lookup_insert_ne by apply not_eq_sym, visitor_ref_not_counter.
Qed.

(** C3, as the code has it: starting from a store in which the counter
    equals the number of visitor records (the empty store is one), after
    each page load of any sequence of loads run one at a time the counter
    equals the number of visitor records, provided the store rejects no
    write of a visitor record.  Loads whose session is not ready, whose
    storage throws, or whose other requests are rejected are covered. *)
Theorem counter_matches_records_unless_record_write_fails
    (vs : list visit) (d : documents) :
  count_matches_records g d →
  no_visitor_write_fails g vs d = true →
  ∀ k, count_matches_records g (after_visits g (take k vs) d).
Proof.
  revert d. induction vs as [|v vs IH]; intros d Hinv Hok k.
  - by rewrite take_nil.
  - destruct k as [|k]; [done|].
    simpl in Hok. apply andb_true_iff in Hok as [Hv Hvs].
    apply negb_true_iff in Hv.
    simpl. apply IH; [|done]. by apply after_visit_keeps_count.
Qed.

End ProtocolFacts.

(** * The claims about the display *)

(** The value the callback stores is never [NaN], so comparing it with
    [!==] is comparing it for inequality. *)
Lemma js_or_zero_strict_eq (v old : jsval) :
  js_strict_eq (js_or v (JNum 0)) old = bool_decide (js_or v (JNum 0) = old).
Proof.
  unfold js_or. destruct v as [| |[]|z| |s]; simpl; try by destruct old.
  - destruct (z =? 0); by destruct old.
  - destruct (bool_decide (s = "")); by destruct old.
Qed.

Lemma js_strict_neq_zero (v : jsval) :
  js_strict_neq v (JNum 0) = bool_decide (v ≠ JNum 0).
Proof.
  unfold js_strict_neq, js_strict_eq.
  destruct v; try done. simpl. by rewrite bool_decide_not.
Qed.

Lemma fire_last due b u : isPulsing (fire (due ++ [b]) u) = b.2.
Proof. unfold fire. by rewrite fold_left_app. Qed.

(** The callback on a snapshot of an existing counter document. *)
Lemma onSnapshot_next_document (data : document) (u : display) :
  let newCount := js_or (field data "count") (JNum 0) in
  let u' := onSnapshot_next (Some data) u in
  viewCount u' = newCount
  ∧ (newCount ≠ viewCount u → viewCount u ≠ JNum 0 →
     isPulsing u' = true
     ∧ timers u' = timers u ++ [(clock u + 500, false)]
     ∧ (timers u = [] → ∀ dt, dt < 500 → isPulsing (advance dt u') = true)
     ∧ (∀ dt, 500 ≤ dt → isPulsing (advance dt u') = false))
  ∧ (newCount = viewCount u ∨ viewCount u = JNum 0 →
     isPulsing u' = isPulsing u ∧ timers u' = timers u).
Proof.
  intros newCount u'. subst u'. unfold onSnapshot_next.
  change (js_or (field data "count") (JNum 0)) with newCount.
  assert (Hcond :
    js_strict_neq newCount (viewCount u) && js_strict_neq (viewCount u) (JNum 0)
    = bool_decide (newCount ≠ viewCount u) && bool_decide (viewCount u ≠ JNum 0)).
  { rewrite js_strict_neq_zero. unfold js_strict_neq, newCount.
    by rewrite js_or_zero_strict_eq, !bool_decide_not. }
  rewrite Hcond. clear Hcond. clearbody newCount.
  split; [by destruct (_ && _)|]. split.
  - intros Hnew Hold. rewrite !bool_decide_eq_true_2 by done. simpl.
    split_and!; try done.
    + intros Hnone dt Hdt. unfold advance. simpl. rewrite Hnone. simpl.
      by rewrite filter_cons_False by (simpl; lia).
    + intros dt Hdt. unfold advance. simpl.
      rewrite filter_app, filter_cons_True by (simpl; lia).
      rewrite filter_nil. apply fire_last.
  - intros [Hsame|Hzero].
    + rewrite (bool_decide_eq_false_2 (newCount ≠ viewCount u)) by auto.
      done.
    + rewrite (bool_decide_eq_false_2 (viewCount u ≠ JNum 0)) by auto.
      by rewrite andb_false_r.
Qed.

(** C5, as the code has it.  A notification carrying the counter document,
    with new count [data.count || 0]: the displayed count becomes the new
    count; if the new count differs from the displayed one and the displayed
    one is not 0, the pulse flag is set and one timer is registered that
    clears it 500 ms later (with no older timer pending the flag is still set
    at any earlier time, and it is cleared once 500 ms have passed); if the
    new count equals the displayed one, or the displayed one is 0, the flag
    and the timers are left as they were, whatever the new count.  A
    notification for a missing counter document sets the displayed count to
    0 and leaves the flag and the timers as they were, whatever was
    displayed: it never triggers the pulse. *)
Theorem onSnapshot_pulse (data : document) (u : display) :
  let newCount := js_or (field data "count") (JNum 0) in
  let u' := onSnapshot_next (Some data) u in
  let gone := onSnapshot_next None u in
  (viewCount u' = newCount
   ∧ (newCount ≠ viewCount u → viewCount u ≠ JNum 0 →
      isPulsing u' = true
      ∧ timers u' = timers u ++ [(clock u + 500, false)]
      ∧ (timers u = [] → ∀ dt, dt < 500 → isPulsing (advance dt u') = true)
      ∧ (∀ dt, 500 ≤ dt → isPulsing (advance dt u') = false))
   ∧ (newCount = viewCount u ∨ viewCount u = JNum 0 →
      isPulsing u' = isPulsing u ∧ timers u' = timers u))
  ∧ (viewCount gone = JNum 0
     ∧ isPulsing gone = isPulsing u
     ∧ timers gone = timers u).
Proof.
  intros newCount u' gone. split.
  - apply onSnapshot_next_document.
  - subst gone. unfold onSnapshot_next, setViewCount. simpl. done.
Qed.

(** C10: a notification for a counter document that does not exist sets
    the displayed count to 0, whatever was displayed; a notification for a
    document whose [count] field is absent, or is 0, sets it to 0 too. *)
Theorem onSnapshot_shows_zero (data : document) (u : display) :
  viewCount (onSnapshot_next None u) = JNum 0
  ∧ (data !! "count" = None ∨ data !! "count" = Some (JNum 0) →
     viewCount (onSnapshot_next (Some data) u) = JNum 0).
Proof.
  split; [done|].
  intros H. unfold onSnapshot_next, field.
  assert (Hz : js_or (default JUndefined (data !! "count")) (JNum 0) = JNum 0)
    by (by destruct H as [-> | ->]).
  rewrite Hz. by destruct (_ && _).
Qed.

(** * The claims at concrete inputs *)

(** The sample identifiers and the default app id are single segments. *)
Ltac segment :=
  split; [vm_compute; intros H; discriminate H | vm_compute; reflexivity].

Lemma default_app_id_segment : single_segment (appId None).
Proof. segment. Qed.

Lemma v1_segment : single_segment "v1".
Proof. segment. Qed.

Lemma alice_id_segment : single_segment alice_id.
Proof. segment. Qed.

Lemma bob_id_segment : single_segment bob_id.
Proof. segment. Qed.

Lemma safe_integer_small (z : Z) : -1000 ≤ z ≤ 1000 → safe_integer z.
Proof. unfold safe_integer. lia. Qed.

Lemma getUniqueVisitorId_same_identifier_witness :
  items empty_storage !! visitor_key = None
  ∧ (getUniqueVisitorId_calls [alice; bob; alice] empty_storage).1
    = replicate 3 (Returns alice_id).
Proof.
  split; [reflexivity|].
  pose proof (getUniqueVisitorId_same_identifier alice [bob; alice]
                empty_storage eq_refl eq_refl eq_refl) as H.
  simpl in H. destruct H as (_ & _ & _ & H & _).
  exact H.
Defined.

Lemma getUniqueVisitorId_storage_failure_witness :
  let w := fresh_world full_storage ∅ no_faults in
  let w' := fresh_world empty_storage ∅ no_faults in
  storage_call_throws (local w) = true
  ∧ storage_call_throws (local w') = false
  ∧ (∃ e, trackPageView None alice w = (Throws e, w))
  ∧ (∃ id st', getUniqueVisitorId alice (local w') = (Returns id, st') ∧ id ≠ "").
Proof.
  intros w w'.
  split; [reflexivity|]. split; [reflexivity|]. split.
  - destruct (getUniqueVisitorId_storage_failure None alice w) as [H _].
    destruct (H eq_refl) as [_ H']. apply H'; reflexivity.
  - destruct (getUniqueVisitorId_storage_failure None alice w') as [_ H].
    apply H. reflexivity.
Defined.

(** C7 as stated fails: with a storage that refuses its calls the function
    throws instead of handing out a regenerated identifier, on the first call
    and on the next, and the page load that made the call rejects. *)
Lemma getUniqueVisitorId_unavailable_storage_throws :
  ¬ (∃ id st', getUniqueVisitorId alice blocked_storage = (Returns id, st'))
  ∧ getUniqueVisitorId_calls [alice; bob] blocked_storage
    = ([Throws (DOMException "SecurityError");
        Throws (DOMException "SecurityError")], blocked_storage)
  ∧ getUniqueVisitorId alice full_storage
    = (Throws (DOMException "QuotaExceededError"), full_storage)
  ∧ trackPageView None alice (fresh_world blocked_storage ∅ no_faults)
    = (Throws (DOMException "SecurityError"),
       fresh_world blocked_storage ∅ no_faults).
Proof.
  repeat split; try reflexivity.
  intros (id & st' & H). vm_compute in H. discriminate H.
Qed.

(** The scenario of the specification: ["v1"] is not in the store and the
    counter document is absent. *)
Lemma trackPageView_counts_first_visitor_witness :
  let w := fresh_world storage_v1 ∅ no_faults in
  let w' := (trackPageView None alice w).2 in
  getUniqueVisitorId alice (local w) = (Returns "v1", storage_v1)
  ∧ single_segment (appId None)
  ∧ single_segment "v1"
  ∧ docs (remote w) !! visitor_ref None "v1" = None
  ∧ docs (remote w) !! counter_ref None = None
  ∧ docs (remote w') !! counter_ref None
    = Some {[ "count" := JNum 1; "lastUpdate" := JStr (iso_count alice) ]}
  ∧ is_Some (docs (remote w') !! visitor_ref None "v1").
Proof.
  intros w w'.
  destruct (trackPageView_counts_first_visitor None alice w "v1" storage_v1
              eq_refl eq_refl eq_refl default_app_id_segment v1_segment
              eq_refl eq_refl (λ _, eq_refl))
    as (_ & Hc & Hv & _).
  split_and!.
  - reflexivity.
  - exact default_app_id_segment.
  - exact v1_segment.
  - reflexivity.
  - reflexivity.
  - exact Hc.
  - eexists. exact Hv.
Defined.

(** The scenario of the specification: ["v1"] is in the store and the
    counter is at 7. *)
Lemma trackPageView_known_visitor_writes_nothing_witness :
  let w := fresh_world storage_v1 store_seven no_faults in
  let w' := (trackPageView None alice w).2 in
  is_Some (docs (remote w) !! visitor_ref None "v1")
  ∧ counter_value None (docs (remote w)) = JNum 7
  ∧ docs (remote w') = store_seven
  ∧ counter_value None (docs (remote w')) = JNum 7.
Proof.
  intros w w'.
  assert (Hrecord : docs (remote w) !! visitor_ref None "v1"
                    = Some {[ "firstVisit" := JStr "2024-04-30T08:00:00.000Z";
                              "userAgent" := JStr "Mozilla/5.0" ]})
    by (vm_compute; reflexivity).
  assert (Hid : getUniqueVisitorId alice (local w) = (Returns "v1", storage_v1))
    by (vm_compute; reflexivity).
  assert (Hseven : counter_value None (docs (remote w)) = JNum 7)
    by (vm_compute; reflexivity).
  destruct (trackPageView_known_visitor_writes_nothing None alice w "v1"
              storage_v1 Hid (mk_is_Some _ _ Hrecord)) as (Hd & Hc & _).
  split_and!; [exact (mk_is_Some _ _ Hrecord) | exact Hseven | exact Hd | ].
  exact (eq_trans Hc Hseven).
Defined.

(** A new visitor arrives at the store of the previous scenario: the counter
    goes to 8 and the field ["owner"] stays. *)
Lemma trackPageView_counter_write_merges_witness :
  let w := fresh_world empty_storage store_seven no_faults in
  let w' := (trackPageView None alice w).2 in
  counter_value None (docs (remote w')) = JNum 8
  ∧ ∃ new, docs (remote w') !! counter_ref None = Some new
           ∧ new !! "owner" = Some (JStr "siraw").
Proof.
  intros w w'.
  split; [vm_compute; reflexivity|].
  assert (Hold : docs (remote w) !! counter_ref None = Some counter_seven)
    by (vm_compute; reflexivity).
  assert (Howner : counter_seven !! "owner" = Some (JStr "siraw"))
    by (vm_compute; reflexivity).
  destruct (trackPageView_counter_write_merges None alice w counter_seven
              "owner" Hold ltac:(discriminate) ltac:(discriminate))
    as [(new & Hnew & Hk) _].
  exists new. split; [exact Hnew|]. exact (eq_trans Hk Howner).
Defined.

(** The store rejects the read of the counter. *)
Lemma store_errors_are_logged_and_swallowed_witness :
  let w := fresh_world empty_storage ∅ (fault_only 1 "permission-denied") in
  (GetDoc (counter_ref None), Some "permission-denied")
    ∈ requests_of_load None alice w
  ∧ (trackPageView None alice w).1 = Returns tt
  ∧ console (trackPageView None alice w).2
    = [("Error tracking view:", FirestoreError "permission-denied")].
Proof.
  intros w.
  assert (Hin : (GetDoc (counter_ref None), Some "permission-denied")
                  ∈ requests_of_load None alice w).
  { apply list_elem_of_In. vm_compute. right. left. reflexivity. }
  destruct (store_errors_are_logged_and_swallowed None alice w) as [H _].
  destruct (H _ _ Hin) as [Hr Hc].
  split_and!; [exact Hin | exact Hr | exact Hc].
Defined.

(** The store rejects the write of the visitor record, then serves the next
    load of the same browser. *)
Lemma trackPageView_no_rollback_witness :
  let w := fresh_world empty_storage ∅ (fault_only 3 "unavailable") in
  let w1 := (trackPageView None alice w).2 in
  let w2 := (trackPageView None bob w1).2 in
  fault_at (remote w) 3 = Some "unavailable"
  ∧ single_segment (appId None)
  ∧ single_segment alice_id
  ∧ counter_value None (docs (remote w)) = JNum 0
  ∧ safe_integer (0 + 1)
  ∧ counter_value None (docs (remote w1)) = JNum 1
  ∧ docs (remote w1) !! visitor_ref None alice_id = None
  ∧ counter_value None (docs (remote w2)) = JNum 2
  ∧ is_Some (docs (remote w2) !! visitor_ref None alice_id).
Proof.
  intros w w1 w2.
  assert (Hgood : ∀ k, k ≠ 3%nat → fault_at (remote w) k = None).
  { intros k Hk. simpl. unfold fault_only. by rewrite bool_decide_eq_false_2. }
  assert (Hzero : counter_value None (docs (remote w)) = JNum 0)
    by (vm_compute; reflexivity).
  assert (Hone : safe_integer (0 + 1)) by (apply safe_integer_small; lia).
  assert (Hsafe : ∀ c, counter_value None (docs (remote w)) = JNum c →
                       safe_integer (c + 1)).
  { intros c Hc. rewrite Hzero in Hc. injection Hc as <-. exact Hone. }
  destruct (trackPageView_no_rollback None alice bob w alice_id
              (getUniqueVisitorId alice empty_storage).2 "unavailable"
              eq_refl eq_refl eq_refl eq_refl eq_refl
              default_app_id_segment alice_id_segment
              eq_refl eq_refl Hgood Hsafe)
    as (_ & _ & H1 & H2 & _ & H3 & H4).
  split_and!; [reflexivity | exact default_app_id_segment
              | exact alice_id_segment | exact Hzero | exact Hone
              | exact H1 | exact H2 | exact H3 | exact H4].
Defined.

(** Two browsers, the first of them loading the page twice. *)
Lemma counter_matches_records_unless_record_write_fails_witness :
  let first := mkVisit alice empty_storage no_faults in
  let second := mkVisit bob empty_storage no_faults in
  let again := mkVisit bob (getUniqueVisitorId alice empty_storage).2 no_faults in
  let vs := [first; second; again] in
  count_matches_records None ∅
  ∧ no_visitor_write_fails None vs ∅ = true
  ∧ count_matches_records None (after_visits None vs ∅)
  ∧ visitor_records None (after_visits None vs ∅) = 2%nat.
Proof.
  intros first second again vs.
  assert (H0 : count_matches_records None ∅) by (by vm_compute).
  assert (Hok : no_visitor_write_fails None vs ∅ = true) by (by vm_compute).
  split_and!; [exact H0 | exact Hok | | by vm_compute].
  exact (counter_matches_records_unless_record_write_fails None vs ∅ H0 Hok 3%nat).
Defined.

(** C3 as stated fails: one page load on the empty store whose visitor
    write is rejected leaves the counter at 1 with no visitor record. *)
Lemma counter_exceeds_records_after_rejected_record_write :
  let v := mkVisit alice empty_storage (fault_only 3 "unavailable") in
  count_matches_records None ∅
  ∧ (run_visit None v ∅).1 = Returns tt
  ∧ counter_value None (after_visits None [v] ∅) = JNum 1
  ∧ visitor_records None (after_visits None [v] ∅) = 0%nat
  ∧ ¬ count_matches_records None (after_visits None [v] ∅).
Proof.
  intros v. split_and!; [by vm_compute..|].
  intros H. vm_compute in H. discriminate H.
Qed.

(** The scenario of the specification: 5 is displayed and 6 arrives. *)
Lemma onSnapshot_pulse_witness :
  let data : document := {[ "count" := JNum 6 ]} in
  let u' := onSnapshot_next (Some data) showing_five in
  viewCount u' = JNum 6
  ∧ isPulsing u' = true
  ∧ isPulsing (advance 499 u') = true
  ∧ isPulsing (advance 500 u') = false
  ∧ isPulsing (onSnapshot_next (Some {[ "count" := JNum 5 ]}) showing_five) = false
  ∧ isPulsing (onSnapshot_next (Some data) (initial_display 1000)) = false
  ∧ isPulsing (onSnapshot_next None showing_five) = false.
Proof.
  intros data u'.
  destruct (onSnapshot_pulse data showing_five)
    as ((Hv & Hpulse & _) & (_ & Hgone & _)).
  destruct (Hpulse ltac:(discriminate) ltac:(discriminate))
    as (Hp & _ & Hbefore & Hafter).
  destruct (onSnapshot_pulse {[ "count" := JNum 5 ]} showing_five)
    as ((_ & _ & Hsame) & _).
  destruct (onSnapshot_pulse data (initial_display 1000))
    as ((_ & _ & Hfirst) & _).
  split_and!.
  - exact Hv.
  - exact Hp.
  - apply Hbefore; [reflexivity | lia].
  - apply Hafter. lia.
  - apply (Hsame (or_introl eq_refl)).
  - apply (Hfirst (or_intror eq_refl)).
  - exact Hgone.
Defined.

(** C5 as stated fails: 5 is displayed and a notification for a missing
    counter document arrives.  The displayed count changes from a non-zero
    value to 0, and the pulse flag stays off with no timer registered. *)
Lemma onSnapshot_missing_document_no_pulse :
  let u' := onSnapshot_next None showing_five in
  viewCount showing_five = JNum 5
  ∧ viewCount showing_five ≠ JNum 0
  ∧ viewCount u' = JNum 0
  ∧ viewCount u' ≠ viewCount showing_five
  ∧ isPulsing u' = false
  ∧ timers u' = []
  ∧ ∀ dt, isPulsing (advance dt u') = false.
Proof.
  intros u'. split_and!; done.
Qed.

(** A counter document without a [count] field. *)
Lemma onSnapshot_shows_zero_witness :
  let data : document := {[ "lastUpdate" := JStr "2024-04-30T08:00:00.000Z" ]} in
  data !! "count" = None
  ∧ viewCount (onSnapshot_next (Some data) showing_five) = JNum 0
  ∧ viewCount (onSnapshot_next None showing_five) = JNum 0.
Proof.
  intros data.
  destruct (onSnapshot_shows_zero data showing_five) as [Hnone Hzero].
  split_and!; [reflexivity | apply Hzero; by left | exact Hnone].
Defined.

(** * Further properties of the code *)

(** ** [getUniqueVisitorId] *)

(** X1: whenever [getUniqueVisitorId] returns, the identifier it returns is
    not empty and is what the storage then holds under
    [siraw_unique_visitor_id]; every other key of the storage holds what it
    held, and the call has written at most once, namely that entry. *)
Theorem getUniqueVisitorId_persists_identifier
    (p : page) (st st' : Storage) (id : string) :
  getUniqueVisitorId p st = (Returns id, st') →
  id ≠ ""
  ∧ items st' !! "siraw_unique_visitor_id" = Some id
  ∧ (∀ key, key ≠ "siraw_unique_visitor_id" → items st' !! key = items st !! key)
  ∧ (st' = st
     ∨ setItem_calls st' = setItem_calls st ++ [("siraw_unique_visitor_id", id)]).
Proof.
  unfold getUniqueVisitorId, getItem, setItem.
  destruct (getItem_throws st) eqn:Hget; [done|].
  destruct (no_visitor_id (items st !! visitor_key)) eqn:Hno.
  - destruct (setItem_throws st) eqn:Hset; [done|]. intros [= <- <-]. simpl.
    split_and!.
    + apply fresh_visitor_id_nonempty.
    + apply lookup_insert_eq.
    + intros key Hkey. by rewrite lookup_insert_ne.
    + by right.
  - destruct (items st !! visitor_key) as [s|] eqn:Hs; [|done].
    simpl in *. intros [= <- <-]. split_and!; auto.
    by apply bool_decide_eq_false in Hno.
Qed.

(** X2: an empty string stored under the key counts as no identifier: with
    a working storage the call makes up a new identifier, returns it and
    stores it over the empty entry. *)
Theorem getUniqueVisitorId_replaces_empty_identifier (p : page) (st : Storage) :
  getItem_throws st = false →
  setItem_throws st = false →
  items st !! visitor_key = Some "" →
  (getUniqueVisitorId p st).1 = Returns (fresh_visitor_id p)
  ∧ items (getUniqueVisitorId p st).2 !! visitor_key = Some (fresh_visitor_id p)
  ∧ setItem_calls (getUniqueVisitorId p st).2
    = setItem_calls st ++ [(visitor_key, fresh_visitor_id p)].
Proof.
  intros Hget Hset Hempty.
  rewrite getUniqueVisitorId_first by (by rewrite ?Hempty).
  simpl. split_and!; try done. apply lookup_insert_eq.
Qed.

Lemma occurs_pretty_N_go (x : N) (s : string) :
  occurs "_"%char s = false → occurs "_"%char (pretty_N_go x s) = false.
Proof.
  revert s. induction (N.lt_wf_0 x) as [x _ IH]; intros s Hs.
  assert (x = 0 ∨ 0 < x)%N as [->|?] by lia.
  - by rewrite pretty_N_go_0.
  - rewrite pretty_N_go_step by done. apply IH.
    { by apply N.div_lt. }
    simpl. rewrite Hs. rewrite orb_false_r. apply bool_decide_eq_false.
    unfold pretty_N_char. by repeat case_match.
Qed.

(** The decimal form of a timestamp has no underscore. *)
Lemma occurs_pretty_Z (z : Z) : occurs "_"%char (pretty z) = false.
Proof.
  assert (HN : ∀ x : N, occurs "_"%char (pretty x) = false).
  { intros x. unfold pretty, pretty_N. case_decide; [done|].
    by apply occurs_pretty_N_go. }
  destruct z as [|x|x]; [done|apply HN|].
  unfold pretty, pretty_Z. simpl. apply HN.
Qed.

Lemma occurs_middle (c : ascii) (r t : string) :
  occurs c (r +:+ String c t) = true.
Proof.
  induction r as [|c' r IH]; simpl.
  - by rewrite bool_decide_eq_true_2.
  - rewrite IH. apply orb_true_r.
Qed.

(** The last underscore splits an identifier in one way only. *)
Lemma split_at_last_underscore (r1 r2 t1 t2 : string) :
  occurs "_"%char t1 = false → occurs "_"%char t2 = false →
  r1 +:+ String "_"%char t1 = r2 +:+ String "_"%char t2 →
  r1 = r2 ∧ t1 = t2.
Proof.
  intros H1 H2. revert r2. induction r1 as [|c r1 IH]; intros [|c2 r2]; simpl.
  - by intros [= ->].
  - intros [= <- ->]. by rewrite occurs_middle in H1.
  - intros [= -> <-]. by rewrite occurs_middle in H2.
  - intros [= -> Hrest]. destruct (IH _ Hrest) as [-> ->]. done.
Qed.

(** X3: two page loads make up the same identifier exactly when they draw
    the same random characters (positions 2 to 10 of
    [Math.random().toString(36)]) in the same millisecond. *)
Theorem fresh_visitor_id_collision (p q : page) :
  fresh_visitor_id p = fresh_visitor_id q
  ↔ String.substring 2 9 (random36 p) = String.substring 2 9 (random36 q)
    ∧ date_now p = date_now q.
Proof.
  unfold fresh_visitor_id. split.
  - simpl. intros [= H].
    apply split_at_last_underscore in H as [Hr Ht];
      [| apply occurs_pretty_Z | apply occurs_pretty_Z ].
    split; [done|]. by apply (inj pretty).
  - by intros [-> ->].
Qed.

(** ** The session *)

Lemma auth_notifications_ready tok users ready :
  (auth_notifications tok users ready).1
  = ready || existsb (λ user, bool_decide (is_Some user)) users.
Proof.
  revert ready. induction users as [|user users IH]; intros ready; simpl.
  - by rewrite orb_false_r.
  - destruct (onAuthStateChanged_next tok user ready) as [ready' call] eqn:Hnext.
    specialize (IH ready').
    destruct (auth_notifications tok users ready') as [final calls].
    simpl in *. rewrite IH. unfold onAuthStateChanged_next in Hnext.
    destruct user as [u|]; simpl.
    + injection Hnext as <- _. by rewrite orb_true_r.
    + destruct (js_truthy _); by injection Hnext as <- _.
Qed.

(** A ready flag that started false was set by a state with a user. *)
Lemma isAuthReady_ready_cases tok users :
  (auth_notifications tok users false).1 = true → ∃ user, Some user ∈ users.
Proof.
  rewrite auth_notifications_ready. simpl. rewrite existsb_exists.
  intros (user & Hin & Hsome).
  apply bool_decide_eq_true in Hsome as [u ->].
  exists u. by apply list_elem_of_In.
Qed.

(** X4: after any sequence of reported auth states, [isAuthReady] is true
    exactly when it was true before or one of the states carried a user.  In
    particular a later state without a user (a sign-out) does not clear
    it. *)
Theorem isAuthReady_set_by_user_and_never_cleared
    (token_global : option jsval) (users : list (option User)) (ready : bool) :
  ((auth_notifications token_global users ready).1 = true
   ↔ ready = true ∨ ∃ user, Some user ∈ users)
  ∧ (auth_notifications token_global (users ++ [None]) ready).1
    = (auth_notifications token_global users ready).1.
Proof.
  rewrite !auth_notifications_ready. split.
  - rewrite orb_true_iff, existsb_exists. split.
    + intros [?|(user & Hin & Hsome)]; [by left|right].
      apply bool_decide_eq_true in Hsome as [u ->].
      exists u. by apply list_elem_of_In.
    + intros [?|(u & Hin)]; [by left|right].
      exists (Some u). split; [by apply list_elem_of_In|].
      apply bool_decide_eq_true. by eexists.
  - rewrite existsb_app. simpl. by rewrite !orb_false_r.
Qed.

(** The sign-in the listener starts when no user is reported. *)
Lemma auth_notifications_sign_ins tok users ready :
  (auth_notifications tok users ready).2
  = replicate (length (filter (λ user, user = None) users))
      (if js_truthy (initialAuthToken tok)
       then SignInWithCustomToken (initialAuthToken tok)
       else SignInAnonymously).
Proof.
  revert ready. induction users as [|user users IH]; intros ready; [done|].
  simpl.
  destruct (onAuthStateChanged_next tok user ready) as [ready' call] eqn:Hnext.
  specialize (IH ready').
  destruct (auth_notifications tok users ready') as [final calls].
  simpl in *. rewrite IH. unfold onAuthStateChanged_next in Hnext.
  destruct user as [u|].
  - injection Hnext as _ <-. by rewrite filter_cons_False by done.
  - rewrite filter_cons_True by done. simpl.
    destruct (js_truthy _); by injection Hnext as _ <-.
Qed.

(** X5: the listener starts one sign-in for each reported state without a
    user and none for a state with a user.  Every one of them is the
    custom-token sign-in with [__initial_auth_token] when that global is
    truthy, and the anonymous sign-in otherwise: when the global is not
    defined, [null], or the empty string. *)
Theorem sign_in_for_each_state_without_user
    (token_global : option jsval) (users : list (option User)) (ready : bool) :
  let calls := (auth_notifications token_global users ready).2 in
  length calls = length (filter (λ user, user = None) users)
  ∧ (js_truthy (initialAuthToken token_global) = true →
     ∀ call, call ∈ calls →
       call = SignInWithCustomToken (default JNull token_global))
  ∧ (token_global = None ∨ token_global = Some JUndefined
     ∨ token_global = Some JNull ∨ token_global = Some (JStr "") →
     ∀ call, call ∈ calls → call = SignInAnonymously).
Proof.
  intros calls. subst calls. rewrite auth_notifications_sign_ins.
  split_and!.
  - by rewrite length_replicate.
  - intros Htruthy call Hin. rewrite Htruthy in Hin.
    apply elem_of_replicate in Hin as [-> _].
    destruct token_global as [[]|]; done.
  - intros Hfalsy call Hin.
    assert (js_truthy (initialAuthToken token_global) = false) as Hf
      by (by destruct Hfalsy as [-> | [-> | [-> | ->]]]).
    rewrite Hf in Hin. by apply elem_of_replicate in Hin as [-> _].
Qed.

(** X6: when the initialisation throws, or the listener cannot be
    registered, or no reported auth state carries a user, the tracking effect
    does nothing at all (no identifier is made up or stored, the store
    receives no request, nothing is logged) and the subscription effect does
    not subscribe.  In every other case the session is ready and [db] is
    set. *)
Theorem no_session_no_tracking
    (g : option string) (token_global : option jsval)
    (sdk : outcome Firestore) (listen : outcome unit)
    (users : list (option User)) (p : page) (w : world) :
  let ready := session_ready token_global sdk listen users in
  let firestoreDb := (initialization sdk listen).1.1 in
  ((∃ e, sdk = Throws e) ∨ (∃ e, listen = Throws e)
   ∨ (∀ user, Some user ∉ users) →
   trackPageView g (with_session ready firestoreDb p) w = (Returns tt, w)
   ∧ subscription_ref g ready firestoreDb = None)
  ∧ (¬ ((∃ e, sdk = Throws e) ∨ (∃ e, listen = Throws e)
        ∨ (∀ user, Some user ∉ users)) →
     ready = true ∧ firestoreDb = Some FirestoreHandle).
Proof.
  intros ready firestoreDb.
  assert (Hnone : (∀ user, Some user ∉ users) →
                  (auth_notifications token_global users false).1 = false).
  { intros Hno. apply not_true_is_false. intros Hready.
    apply (isAuthReady_ready_cases token_global users) in Hready
      as (user & Hin). by apply (Hno user). }
  split.
  - intros Hcause.
    assert (Hoff : ready = false ∨ firestoreDb = None).
    { subst ready firestoreDb. unfold session_ready, initialization.
      destruct Hcause as [[e ->] | [[e ->] | Hno]]; [by left| |].
      - destruct sdk; by left.
      - destruct sdk as [h|]; [|by left]. destruct listen; [|by left].
        simpl. left. by apply Hnone. }
    split.
    + apply trackPageView_not_ready. by destruct Hoff; [left|right].
    + unfold subscription_ref. destruct Hoff as [-> | ->]; [|done].
      by rewrite orb_true_r.
  - intros Hnot. subst ready firestoreDb. unfold session_ready, initialization.
    destruct sdk as [[]|e]; [|destruct Hnot; left; by eexists].
    destruct listen as [[]|e]; [|destruct Hnot; right; left; by eexists].
    simpl. split; [|done].
    destruct ((auth_notifications token_global users false).1) eqn:Hready;
      [done|].
    destruct Hnot. right. right. intros user Hin.
    pose proof (auth_notifications_ready token_global users false) as Heq.
    rewrite Hready in Heq. simpl in Heq. symmetry in Heq.
    apply not_true_iff_false in Heq. apply Heq, existsb_exists.
    exists (Some user). split; [by apply list_elem_of_In|].
    apply bool_decide_eq_true. by eexists.
Qed.

(** ** [trackPageView] *)

Section ProtocolMore.

Variable g : option string.

(** X7: a page load never removes a document and never changes a document
    other than the counter: in particular a visitor record, once written, is
    left as it is.  The only documents a load can create are the counter and
    a visitor record. *)
Theorem trackPageView_keeps_documents (p : page) (w : world) :
  let d := docs (remote w) in
  let d' := docs (remote (trackPageView g p w).2) in
  (∀ r x, r ≠ counter_ref g → d !! r = Some x → d' !! r = Some x)
  ∧ (∀ r, is_Some (d !! r) → is_Some (d' !! r))
  ∧ (∀ r, d !! r = None → is_Some (d' !! r) →
       r = counter_ref g ∨ is_visitor_ref g r).
Proof.
  intros d d'. subst d d'.
  destruct (trackPageView_page_load g p w); load_cases; split_and!;
    try (intros; by simplify_eq);
    try (intros r Hnone [y Hy]; congruence).
  - intros r y Hr Hy. by rewrite lookup_insert_ne.
  - intros r Hsome. rewrite lookup_insert_is_Some'. tauto.
  - intros r Hnone Hsome. apply lookup_insert_is_Some' in Hsome as [<-|Hs].
    + by left.
    + rewrite Hnone in Hs. by destruct Hs.
  - intros r y Hr Hy. rewrite lookup_insert_ne by congruence.
    by rewrite lookup_insert_ne.
  - intros r Hsome. rewrite !lookup_insert_is_Some'. tauto.
  - intros r Hnone Hsome.
    apply lookup_insert_is_Some' in Hsome as [<-|Hsome].
    { right. apply visitor_ref_is_visitor. }
    apply lookup_insert_is_Some' in Hsome as [<-|Hs]; [by left|].
    rewrite Hnone in Hs. by destruct Hs.
Qed.

(** X8: the store receives at most four requests during a page load, and a
    rejected request is the last one of the load: nothing is retried and
    nothing is sent after a failure.  The load logs at most one line. *)
Theorem trackPageView_stops_at_rejection (p : page) (w : world) :
  let reqs := requests_of_load g p w in
  let w' := (trackPageView g p w).2 in
  (length reqs ≤ 4)%nat
  ∧ (∀ before after r code,
       reqs = before ++ (r, Some code) :: after → after = [])
  ∧ (console w' = console w
     ∨ ∃ code, console w' = console w ++ [("Error tracking view:", FirestoreError code)]).
Proof.
  intros reqs w'. subst reqs w'. unfold requests_of_load.
  destruct (trackPageView_page_load g p w); load_cases;
    rewrite ?drop_app_length, ?drop_all; simpl.
  all: split_and!; [lia| |by eauto].
  all: intros before after r code' Heq.
  all: repeat (destruct before as [|? before]; simplify_eq/=; try done).
Qed.

(** X9: with a storage that hands out an identifier, the identifier and
    the app id being single path segments, and a store that serves every
    request, a second page load in the same browser changes no document,
    whatever the first one did: the store only receives the read of the
    visitor record, and nothing is logged. *)
Theorem reload_counts_once
    (p p2 : page) (w : world) (id : string) (st' : Storage) :
  isAuthReady p = true → db p = Some FirestoreHandle →
  isAuthReady p2 = true → db p2 = Some FirestoreHandle →
  getUniqueVisitorId p (local w) = (Returns id, st') →
  single_segment (appId g) →
  single_segment id →
  (∀ k, fault_at (remote w) k = None) →
  let w1 := (trackPageView g p w).2 in
  let w2 := (trackPageView g p2 w1).2 in
  docs (remote w2) = docs (remote w1)
  ∧ local w2 = local w1
  ∧ console w2 = console w1
  ∧ requests_of_load g p2 w1 = [(GetDoc (visitor_ref g id), None)]
  ∧ is_Some (docs (remote w1) !! visitor_ref g id).
Proof.
  intros Hready Hdb Hready2 Hdb2 Hid _ _ Hf w1 w2. subst w2 w1.
  unfold requests_of_load.
  pose proof (getUniqueVisitorId_again p p2 _ _ _ Hid) as Hid2.
  destruct w as [st [d f tr] c].
  cbn [local remote docs fault_at trace] in *.
  destruct (d !! visitor_ref g id) as [x|] eqn:Hx.
  - rewrite (trackPageView_known g p id st st' d f tr c Hready Hdb Hid x)
      by done.
    cbn [fst snd local remote docs fault_at trace console].
    rewrite (trackPageView_known g p2 id st' st' d f _ c Hready2 Hdb2 Hid2 x)
      by done.
    cbn [fst snd local remote docs fault_at trace console].
    rewrite drop_app_length. by split_and!.
  - rewrite (trackPageView_counted g p id st st' d f tr c Hready Hdb Hid)
      by done.
    cbn [fst snd local remote docs fault_at trace console].
    rewrite (trackPageView_known g p2 id st' st' _ f _ c Hready2 Hdb2 Hid2
               (visitor_record p)) by (done || apply lookup_insert_eq).
    cbn [fst snd local remote docs fault_at trace console].
    rewrite drop_app_length. split_and!; try done.
    rewrite lookup_insert_eq. by eexists.
Qed.

(** One page load, whatever the store rejects, keeps the counter a number
    that is not below the number of records. *)
Lemma after_visit_counter_at_least_records (v : visit) (d : documents) :
  counter_at_least_records g d →
  counter_at_least_records g (after_visit g v d).
Proof.
  unfold after_visit, run_visit, counter_at_least_records.
  intros (n & Hn & Hle).
  remember (mkWorld (visit_storage v) (mkBackend d (visit_faults v) []) [])
    as w eqn:Hw.
  destruct (trackPageView_page_load g (visit_page v) w); load_cases;
    try (by exists n).
  - exists (n + 1). rewrite counter_value_insert_counter, field_count_written.
    rewrite Hn, visitor_records_insert_counter. split; [done|lia].
  - exists (n + 1).
    rewrite counter_value_insert_visitor, counter_value_insert_counter.
    rewrite field_count_written, Hn.
    rewrite visitor_records_insert_new, visitor_records_insert_counter.
    + split; [done|lia].
    + by rewrite lookup_insert_ne by apply not_eq_sym, visitor_ref_not_counter.
Qed.

(** X10: starting from a store whose counter is a number not below the
    number of visitor records (the empty store is one), the counter stays a
    number not below the number of records after any sequence of page loads
    run one at a time, whichever requests the store rejects: failures can
    make the counter run ahead of the records, never fall behind. *)
Theorem counter_never_below_records (vs : list visit) (d : documents) :
  counter_at_least_records g d →
  counter_at_least_records g (after_visits g vs d).
Proof.
  revert d. induction vs as [|v vs IH]; intros d Hinv; [done|].
  simpl. apply IH. by apply after_visit_counter_at_least_records.
Qed.

(** Page loads never remove a document. *)
Lemma after_visit_keeps_document (v : visit) (d : documents) (r : docref) :
  is_Some (d !! r) → is_Some (after_visit g v d !! r).
Proof.
  unfold after_visit, run_visit. intros Hsome.
  remember (mkWorld (visit_storage v) (mkBackend d (visit_faults v) []) [])
    as w eqn:Hw.
  destruct (trackPageView_page_load g (visit_page v) w); load_cases;
    rewrite ?lookup_insert_is_Some'; tauto.
Qed.

Lemma after_visits_keep_documents (vs : list visit) (d : documents) (r : docref) :
  is_Some (d !! r) → is_Some (after_visits g vs d !! r).
Proof.
  revert d. induction vs as [|v vs IH]; intros d Hsome; [done|].
  simpl. by apply IH, after_visit_keeps_document.
Qed.

(** A served visit by an identifier without a record: the documents after
    it. *)
Lemma after_visit_served (v : visit) (id : string) (d : documents) :
  served_visit v id →
  d !! visitor_ref g id = None →
  after_visit g v d
  = <[visitor_ref g id := visitor_record (visit_page v)]>
      (<[counter_ref g :=
           written (d !! counter_ref g)
                   (counter_update (visit_page v) (counter_value g d)) true]> d).
Proof.
  intros (Hready & Hdb & Hid & Hf) Hnone. unfold after_visit, run_visit.
  destruct (getUniqueVisitorId (visit_page v) (visit_storage v))
    as [r st'] eqn:Hget. simpl in Hid. subst r.
  by rewrite (trackPageView_counted g (visit_page v) id (visit_storage v) st'
                d (visit_faults v) [] [] Hready Hdb Hget).
Qed.

(** X11: served page loads by browsers whose identifiers are single path
    segments, pairwise distinct and not yet recorded are each counted, the
    app id being a single segment and the count staying a safe integer: after
    [n] of them the counter has grown by [n], the store holds [n] more
    visitor records, and each of the identifiers has its record. *)
Theorem distinct_visitors_each_counted
    (vs : list visit) (ids : list string) (d : documents) (c : Z) :
  Forall2 served_visit vs ids →
  single_segment (appId g) →
  Forall single_segment ids →
  NoDup ids →
  (∀ id, id ∈ ids → d !! visitor_ref g id = None) →
  counter_value g d = JNum c →
  safe_integer c →
  safe_integer (c + Z.of_nat (length vs)) →
  counter_value g (after_visits g vs d) = JNum (c + Z.of_nat (length vs))
  ∧ visitor_records g (after_visits g vs d)
    = (visitor_records g d + length vs)%nat
  ∧ ∀ id, id ∈ ids → is_Some (after_visits g vs d !! visitor_ref g id).
Proof.
  intros Hserved _ _ Hnodup Hfresh Hc _ _. revert d c Hnodup Hfresh Hc.
  induction Hserved as [|v id vs ids Hv _ IH]; intros d c Hnodup Hfresh Hc.
  - simpl. split_and!; [rewrite Hc; f_equal; lia | lia |].
    intros id Hin. by apply elem_of_nil in Hin.
  - apply NoDup_cons in Hnodup as [Hnotin Hnodup].
    simpl. rewrite (after_visit_served v id d Hv)
      by (apply Hfresh; left).
    set (d1 := <[visitor_ref g id := _]> _).
    assert (Hc1 : counter_value g d1 = JNum (c + 1)).
    { subst d1.
      rewrite counter_value_insert_visitor, counter_value_insert_counter.
      by rewrite field_count_written, Hc. }
    assert (Hr1 : visitor_records g d1 = S (visitor_records g d)).
    { subst d1. rewrite visitor_records_insert_new.
      - by rewrite visitor_records_insert_counter.
      - rewrite lookup_insert_ne by apply not_eq_sym, visitor_ref_not_counter.
        apply Hfresh. left. }
    assert (Hfresh1 : ∀ id', id' ∈ ids → d1 !! visitor_ref g id' = None).
    { intros id' Hin. subst d1.
      rewrite lookup_insert_ne
        by (unfold visitor_ref; intros [= ->]; contradiction).
      rewrite lookup_insert_ne by apply not_eq_sym, visitor_ref_not_counter.
      apply Hfresh. by right. }
    destruct (IH d1 (c + 1) Hnodup Hfresh1 Hc1) as (IHc & IHr & IHid).
    split_and!.
    + rewrite IHc. f_equal. lia.
    + rewrite IHr, Hr1. lia.
    + intros id' Hin. apply elem_of_cons in Hin as [->|Hin]; [|by apply IHid].
      apply after_visits_keep_documents. subst d1.
      rewrite lookup_insert_eq. by eexists.
Qed.

End ProtocolMore.

Section CounterNotANumber.

Variable g : option string.

(** X12: when the counter document exists without a [count] field, the
    served page load of a new visitor, whose identifier and app id are single
    path segments, stores [NaN] as the count (it adds 1 to
    [undefined]) and creates the visitor record; a snapshot of the counter
    document then displays 0. *)
Theorem counter_without_count_becomes_NaN
    (p : page) (w : world) (id : string) (st' : Storage) (data : document) :
  isAuthReady p = true → db p = Some FirestoreHandle →
  getUniqueVisitorId p (local w) = (Returns id, st') →
  single_segment (appId g) →
  single_segment id →
  docs (remote w) !! visitor_ref g id = None →
  docs (remote w) !! counter_ref g = Some data →
  data !! "count" = None →
  (∀ k, fault_at (remote w) k = None) →
  let d' := docs (remote (trackPageView g p w).2) in
  counter_value g d' = JNaN
  ∧ is_Some (d' !! visitor_ref g id)
  ∧ ∀ u, viewCount (onSnapshot_next (d' !! counter_ref g) u) = JNum 0.
Proof.
  intros Hready Hdb Hid _ _ Hv Hc Hcount Hf d'. subst d'.
  destruct w as [st [d f tr] c].
  cbn [local remote docs fault_at trace] in *.
  rewrite (trackPageView_counted g p id st st' d f tr c) by done.
  cbn [fst snd local remote docs fault_at trace].
  assert (Hnan : field (written (d !! counter_ref g)
                          (counter_update p (counter_value g d)) true) "count"
                 = JNaN).
  { rewrite field_count_written. unfold counter_value, field.
    by rewrite Hc, Hcount. }
  split_and!.
  - by rewrite counter_value_insert_visitor, counter_value_insert_counter.
  - rewrite lookup_insert_eq. by eexists.
  - intros u.
    rewrite lookup_insert_ne by apply visitor_ref_not_counter.
    rewrite lookup_insert_eq. unfold onSnapshot_next. rewrite Hnan.
    change (js_or JNaN (JNum 0)) with (JNum 0). by destruct (_ && _).
Qed.

Lemma after_visit_keeps_NaN (v : visit) (d : documents) :
  counter_value g d = JNaN → counter_value g (after_visit g v d) = JNaN.
Proof.
  unfold after_visit, run_visit. intros Hnan.
  remember (mkWorld (visit_storage v) (mkBackend d (visit_faults v) []) [])
    as w eqn:Hw.
  destruct (trackPageView_page_load g (visit_page v) w); load_cases;
    try done.
  - by rewrite counter_value_insert_counter, field_count_written, Hnan.
  - rewrite counter_value_insert_visitor, counter_value_insert_counter.
    by rewrite field_count_written, Hnan.
Qed.

(** X13: a count that is [NaN] stays [NaN]: no sequence of page loads,
    served or not, brings the counter back to a number. *)
Theorem counter_NaN_is_permanent (vs : list visit) (d : documents) :
  counter_value g d = JNaN →
  counter_value g (after_visits g vs d) = JNaN.
Proof.
  revert d. induction vs as [|v vs IH]; intros d Hnan; [done|].
  simpl. by apply IH, after_visit_keeps_NaN.
Qed.

(** X14: a first-time visitor sees the count that includes the visit, and
    sees it without a pulse: after a served page load of a new visitor, whose
    identifier and app id are single path segments, on a counter at a safe
    integer [c], the subscription listens to the counter document, and its
    snapshot, delivered to the initial display, shows [c + 1] with the pulse
    flag off and no timer pending. *)
Theorem first_visit_shows_new_count
    (p : page) (w : world) (id : string) (st' : Storage) (c now : Z) :
  isAuthReady p = true → db p = Some FirestoreHandle →
  getUniqueVisitorId p (local w) = (Returns id, st') →
  single_segment (appId g) →
  single_segment id →
  docs (remote w) !! visitor_ref g id = None →
  counter_value g (docs (remote w)) = JNum c →
  safe_integer c →
  (∀ k, fault_at (remote w) k = None) →
  let d' := docs (remote (trackPageView g p w).2) in
  ∃ ref, subscription_ref g (isAuthReady p) (db p) = Some ref
    ∧ onSnapshot_next (d' !! ref) (initial_display now)
      = mkDisplay (JNum (c + 1)) false now [] [].
Proof.
  intros Hready Hdb Hid _ _ Hv Hc _ Hf d'. subst d'.
  destruct w as [st [d f tr] cs].
  cbn [local remote docs fault_at trace] in *.
  rewrite (trackPageView_counted g p id st st' d f tr cs) by done.
  cbn [fst snd local remote docs fault_at trace].
  exists (counter_ref g). split.
  { by rewrite Hready, Hdb. }
  rewrite lookup_insert_ne by apply visitor_ref_not_counter.
  rewrite lookup_insert_eq. unfold onSnapshot_next.
  rewrite field_count_written, Hc.
  change (js_add (JNum c) (JNum 1)) with (JNum (c + 1)).
  assert (Hnew : js_or (JNum (c + 1)) (JNum 0) = JNum (c + 1)).
  { unfold js_or. simpl. by destruct (Z.eqb_spec (c + 1) 0) as [->|]. }
  rewrite Hnew. unfold initial_display. cbn [viewCount].
  change (js_strict_neq (JNum 0) (JNum 0)) with false.
  by rewrite andb_false_r.
Qed.

End CounterNotANumber.

(** ** The display over time *)

Lemma js_or_zero_ok v : js_or v (JNum 0) = JNum 0 ∨ js_truthy (js_or v (JNum 0)) = true.
Proof. unfold js_or. destruct (js_truthy v) eqn:Hv; auto. Qed.

Lemma fire_clears due u :
  Forall (λ t : Z * bool, t.2 = false) due → due ≠ [] →
  isPulsing (fire due u) = false.
Proof.
  intros Hall Hne. destruct (exists_last Hne) as (due' & t & ->).
  rewrite fire_last. apply Forall_app in Hall as [_ Hall].
  rewrite Forall_singleton in Hall. exact Hall.
Qed.

Lemma filter_all {A} (P : A → Prop) `{∀ x, Decision (P x)} (l : list A) :
  (∀ x, x ∈ l → P x) → filter P l = l.
Proof.
  induction l as [|x l IH]; intros Hall; [done|].
  rewrite filter_cons_True by (apply Hall; left).
  f_equal. apply IH. intros y Hy. apply Hall. by right.
Qed.

Lemma filter_none {A} (P : A → Prop) `{∀ x, Decision (P x)} (l : list A) :
  (∀ x, x ∈ l → ¬ P x) → filter P l = [].
Proof.
  induction l as [|x l IH]; intros Hall; [done|].
  rewrite filter_cons_False by (apply Hall; left).
  apply IH. intros y Hy. apply Hall. by right.
Qed.

Lemma fire_viewCount due u : viewCount (fire due u) = viewCount u.
Proof.
  unfold fire. revert u. induction due as [|t due IH]; intros u; [done|].
  simpl. by rewrite IH.
Qed.

Lemma display_ok_initial now : display_ok (initial_display now).
Proof. split_and!; [by left | constructor | done]. Qed.

Lemma display_ok_step u ev : display_ok u → display_ok (display_step u ev).
Proof.
  intros (Hview & Htimers & Hflag). destruct ev as [[data|]|e|ms]; simpl.
  - unfold onSnapshot_next.
    destruct (_ && _); (split_and!; [apply js_or_zero_ok|..]); simpl; try done.
    + apply Forall_app. split; [done|].
      apply Forall_singleton. simpl. lia.
    + intros _. by destruct (timers u).
  - split_and!; [by left|done..].
  - done.
  - unfold advance. simpl. split_and!.
    + by rewrite fire_viewCount.
    + apply Forall_forall. intros t Hin.
      apply list_elem_of_filter in Hin as [Hlate Hin].
      rewrite Forall_forall in Htimers.
      destruct (Htimers t) as (Hf & _ & Hdue); [done|].
      split; [done|]. cbn [clock]. lia.
    + cbn [isPulsing timers].
      destruct (filter (λ t, t.1 ≤ clock u + Z.of_nat ms) (timers u))
        as [|t due] eqn:Hdue.
      * intros Hp. apply Hflag in Hp.
        rewrite (filter_all _ (timers u)); [done|].
        intros x Hx Hle.
        by eapply (filter_nil_not_elem_of _ _ x Hdue).
      * intros Hp. rewrite fire_clears in Hp; [done| |done].
        rewrite <- Hdue. apply Forall_forall. intros t' Hin.
        apply list_elem_of_filter in Hin as [_ Hin].
        rewrite Forall_forall in Htimers.
        by destruct (Htimers t') as (Hf & _); [done|].
Qed.

Lemma display_ok_run evs u : display_ok u → display_ok (display_run evs u).
Proof.
  revert u. induction evs as [|ev evs IH]; intros u Hok; [done|].
  simpl. by apply IH, display_ok_step.
Qed.

(** X15: whatever snapshots, errors and delays the display goes through
    from its initial state, the displayed count is never [undefined], [null]
    or [NaN] (it is 0 or a truthy value), so [viewCount.toLocaleString()] in
    the render is always defined. *)
Theorem viewCount_always_renders (evs : list display_event) (now : Z) :
  let u := display_run evs (initial_display now) in
  toLocaleString_defined (viewCount u) = true
  ∧ viewCount u ≠ JNaN
  ∧ (viewCount u = JNum 0 ∨ js_truthy (viewCount u) = true).
Proof.
  intros u.
  destruct (display_ok_run evs _ (display_ok_initial now)) as (Hview & _).
  fold u in Hview. split_and!; [| |done];
    destruct Hview as [-> | Ht]; try done; by destruct (viewCount u).
Qed.

(** X16: the pulse always ends: in every state the display can reach, once
    500 ms (or more) pass without a notification the pulse flag is off and no
    timer is left. *)
Theorem pulse_always_ends (evs : list display_event) (now : Z) (ms : nat) :
  (500 ≤ ms)%nat →
  let u := display_run (evs ++ [Elapse ms]) (initial_display now) in
  isPulsing u = false ∧ timers u = [].
Proof.
  intros Hms u. subst u. unfold display_run. rewrite fold_left_app. simpl.
  fold (display_run evs (initial_display now)).
  destruct (display_ok_run evs _ (display_ok_initial now))
    as (_ & Htimers & Hflag).
  set (u := display_run evs (initial_display now)) in *.
  assert (Hall : ∀ t, t ∈ timers u → t.1 ≤ clock u + Z.of_nat ms).
  { intros t Hin. rewrite Forall_forall in Htimers.
    destruct (Htimers t) as (_ & _ & Hdue); [done|]. lia. }
  unfold advance. simpl. split.
  - rewrite (filter_all _ (timers u)) by (intros; by apply Hall).
    destruct (timers u) as [|t ts] eqn:Hts.
    + simpl. destruct (isPulsing u); [|done]. by destruct Hflag.
    + apply fire_clears; [|done]. rewrite <- Hts in *.
      eapply Forall_impl; [exact Htimers|]. by intros ? [? _].
  - apply filter_none. intros t Hin Hlate. apply Hlate. by apply Hall.
Qed.

(** X17: no timer is ever cancelled, so a pulse that starts while the timer
    of an earlier pulse is pending ends when that earlier timer is due, at
    most 500 ms but possibly much less after it started. *)
Theorem pulse_cut_short_by_earlier_timer
    (evs : list display_event) (now : Z) (data : document) (due : Z) (b : bool) :
  let u := display_run evs (initial_display now) in
  let newCount := js_or (field data "count") (JNum 0) in
  let u' := onSnapshot_next (Some data) u in
  (due, b) ∈ timers u →
  newCount ≠ viewCount u → viewCount u ≠ JNum 0 →
  isPulsing u' = true
  ∧ 0 < due - clock u ≤ 500
  ∧ isPulsing (advance (due - clock u) u') = false.
Proof.
  intros u newCount u' Hin Hnew Hold.
  destruct (display_ok_run evs _ (display_ok_initial now))
    as (_ & Htimers & _). fold u in Htimers.
  assert (Hpulse : timers u' = timers u ++ [(clock u + 500, false)]
                   ∧ isPulsing u' = true ∧ clock u' = clock u).
  { subst u'. unfold onSnapshot_next. fold newCount.
    assert (Hcond : js_strict_neq newCount (viewCount u)
                    && js_strict_neq (viewCount u) (JNum 0) = true).
    { rewrite js_strict_neq_zero. unfold js_strict_neq, newCount.
      rewrite js_or_zero_strict_eq. fold newCount.
      by rewrite bool_decide_eq_false_2, bool_decide_eq_true_2. }
    by rewrite Hcond. }
  destruct Hpulse as (Ht' & Hp' & Hc').
  assert (Hdue : b = false ∧ clock u < due ≤ clock u + 500).
  { rewrite Forall_forall in Htimers.
    by apply (Htimers (due, b)). }
  destruct Hdue as (-> & Hlo & Hhi).
  split_and!; [done | lia | lia |].
  unfold advance. rewrite Hc', Ht'.
  replace (clock u + (due - clock u)) with due by lia.
  apply fire_clears.
  - apply Forall_forall. intros t Hint.
    apply list_elem_of_filter in Hint as [_ Hint].
    apply elem_of_app in Hint as [Hint|Hint].
    + rewrite Forall_forall in Htimers.
      by destruct (Htimers t) as (? & _); [done|].
    + by apply list_elem_of_singleton in Hint as ->.
  - intros Hnil.
    assert (Hd : (due, false) ∈ filter (λ t : Z * bool, t.1 ≤ due)
                                   (timers u ++ [(clock u + 500, false)])).
    { apply list_elem_of_filter. split; [simpl; lia|].
      apply elem_of_app. by left. }
    rewrite Hnil in Hd. by apply elem_of_nil in Hd.
Qed.

(** ** Deployments and snapshots *)

(** A page load leaves alone every document that is neither its counter
    nor one of its visitor records. *)
Lemma trackPageView_other_documents (g : option string) p w (r : docref) :
  r ≠ counter_ref g → ¬ is_visitor_ref g r →
  docs (remote (trackPageView g p w).2) !! r = docs (remote w) !! r.
Proof.
  intros Hc Hv.
  destruct (trackPageView_page_load g p w); load_cases; try done.
  - by rewrite lookup_insert_ne.
  - rewrite lookup_insert_ne.
    + by rewrite lookup_insert_ne.
    + intros <-. apply Hv, visitor_ref_is_visitor.
Qed.

Lemma counter_ref_not_visitor_any (g1 g2 : option string) : ¬ is_visitor_ref g2 (counter_ref g1).
Proof. intros [_ H]. simpl in H. congruence. Qed.

Lemma visitor_records_other_insert (g2 : option string) (d : documents)
    (r : docref) (x : document) :
  ¬ is_visitor_ref g2 r →
  visitor_records g2 (<[r := x]> d) = visitor_records g2 d.
Proof.
  intros Hr. unfold visitor_records. by rewrite map_filter_insert_not.
Qed.

(** X18: page loads of a deployment with another app id do not interfere,
    both app ids being single path segments: a load under [__app_id] [g1]
    leaves the counter document, the counter
    value, every visitor record and the number of visitor records of a
    deployment whose app id differs exactly as they were. *)
Theorem app_ids_do_not_interfere (g1 g2 : option string) (p : page) (w : world) :
  single_segment (appId g1) →
  single_segment (appId g2) →
  appId g1 ≠ appId g2 →
  let d := docs (remote w) in
  let d' := docs (remote (trackPageView g1 p w).2) in
  d' !! counter_ref g2 = d !! counter_ref g2
  ∧ counter_value g2 d' = counter_value g2 d
  ∧ (∀ id, d' !! visitor_ref g2 id = d !! visitor_ref g2 id)
  ∧ visitor_records g2 d' = visitor_records g2 d.
Proof.
  intros _ _ Happ d d'. subst d d'.
  assert (Hcc : counter_ref g2 ≠ counter_ref g1)
    by (unfold counter_ref; congruence).
  assert (Hcv : ¬ is_visitor_ref g1 (counter_ref g2))
    by (intros [_ H]; simpl in H; congruence).
  assert (Hvc : ∀ id, visitor_ref g2 id ≠ counter_ref g1)
    by (intros id; unfold visitor_ref, counter_ref; congruence).
  assert (Hvv : ∀ id, ¬ is_visitor_ref g1 (visitor_ref g2 id))
    by (intros id [_ H]; simpl in H; congruence).
  assert (Hrecords : ∀ id, ¬ is_visitor_ref g2 (visitor_ref g1 id))
    by (intros id [_ H]; simpl in H; congruence).
  assert (Hcounter :
    docs (remote (trackPageView g1 p w).2) !! counter_ref g2
    = docs (remote w) !! counter_ref g2)
    by (by apply trackPageView_other_documents).
  split_and!.
  - done.
  - unfold counter_value. by rewrite Hcounter.
  - intros id. by apply trackPageView_other_documents.
  - destruct (trackPageView_page_load g1 p w); load_cases; try done.
    + apply visitor_records_other_insert, counter_ref_not_visitor_any.
    + rewrite visitor_records_other_insert by apply Hrecords.
      apply visitor_records_other_insert, counter_ref_not_visitor_any.
Qed.

(** Errors and the passing of time do not change the displayed count. *)
Lemma display_run_keeps_viewCount rest u :
  Forall (λ ev, ∀ snap, ev ≠ Snapshot snap) rest →
  viewCount (display_run rest u) = viewCount u.
Proof.
  revert u. induction rest as [|ev rest IH]; intros u Hrest; [done|].
  apply Forall_cons in Hrest as [Hev Hrest]. simpl.
  rewrite IH by done. destruct ev as [snap|e|ms]; simpl.
  - by destruct (Hev snap).
  - done.
  - apply fire_viewCount.
Qed.

(** X19: the display always shows the count of the most recent snapshot,
    [count || 0] of the document or 0 when the document is missing, whatever
    was displayed before and whatever errors and delays came after it; errors
    and delays alone never change the displayed count. *)
Theorem display_shows_latest_snapshot
    (evs rest : list display_event) (snap : option document) (u : display) :
  Forall (λ ev, ∀ s, ev ≠ Snapshot s) rest →
  viewCount (display_run (evs ++ Snapshot snap :: rest) u)
  = match snap with
    | Some data => js_or (field data "count") (JNum 0)
    | None => JNum 0
    end
  ∧ viewCount (display_run rest u) = viewCount u.
Proof.
  intros Hrest. split; [|by apply display_run_keeps_viewCount].
  unfold display_run. rewrite fold_left_app. simpl.
  fold (display_run evs u).
  fold (display_run rest (onSnapshot_next snap (display_run evs u))).
  rewrite display_run_keeps_viewCount by done.
  destruct snap as [data|]; [|done].
  unfold onSnapshot_next. by destruct (_ && _).
Qed.

(** ** The further properties at concrete inputs *)

Lemma getUniqueVisitorId_persists_identifier_witness :
  let st' := (getUniqueVisitorId alice empty_storage).2 in
  getUniqueVisitorId alice empty_storage = (Returns alice_id, st')
  ∧ items st' !! "siraw_unique_visitor_id" = Some alice_id
  ∧ alice_id ≠ "".
Proof.
  intros st'.
  assert (Hcall : getUniqueVisitorId alice empty_storage = (Returns alice_id, st'))
    by (vm_compute; reflexivity).
  destruct (getUniqueVisitorId_persists_identifier alice empty_storage st'
              alice_id Hcall) as (Hne & Hstored & _).
  split_and!; [exact Hcall | exact Hstored | exact Hne].
Defined.

Lemma getUniqueVisitorId_replaces_empty_identifier_witness :
  items storage_blank !! visitor_key = Some ""
  ∧ (getUniqueVisitorId alice storage_blank).1 = Returns (fresh_visitor_id alice).
Proof.
  assert (Hblank : items storage_blank !! visitor_key = Some "")
    by (vm_compute; reflexivity).
  destruct (getUniqueVisitorId_replaces_empty_identifier alice storage_blank
              eq_refl eq_refl Hblank) as (Hid & _).
  split; [exact Hblank | exact Hid].
Defined.

Lemma sign_in_for_each_state_without_user_witness :
  let users := [None; Some (FirebaseUser "u1"); None] in
  js_truthy (initialAuthToken (Some (JStr "token-1"))) = true
  ∧ (∀ call, call ∈ (auth_notifications (Some (JStr "token-1")) users false).2 →
       call = SignInWithCustomToken (JStr "token-1"))
  ∧ (∀ call, call ∈ (auth_notifications (Some (JStr "")) users false).2 →
       call = SignInAnonymously)
  ∧ length (auth_notifications None users false).2 = 2%nat.
Proof.
  intros users.
  destruct (sign_in_for_each_state_without_user (Some (JStr "token-1")) users
              false) as (_ & Hcustom & _).
  destruct (sign_in_for_each_state_without_user (Some (JStr "")) users false)
    as (_ & _ & Hanon).
  destruct (sign_in_for_each_state_without_user None users false)
    as (Hlen & _).
  split_and!.
  - reflexivity.
  - exact (Hcustom eq_refl).
  - apply Hanon. right. right. right. reflexivity.
  - exact Hlen.
Defined.

Lemma no_session_no_tracking_witness :
  let w := fresh_world empty_storage ∅ no_faults in
  let failed : outcome Firestore := Throws (FirestoreError "invalid-argument") in
  let users := [None; Some (FirebaseUser "u1")] in
  trackPageView None
    (with_session (session_ready None failed (Returns tt) users)
                  (initialization failed (Returns tt)).1.1 alice) w
  = (Returns tt, w)
  ∧ session_ready None (Returns FirestoreHandle) (Returns tt) users = true.
Proof.
  intros w failed users.
  destruct (no_session_no_tracking None None failed (Returns tt) users alice w)
    as [Hoff _].
  destruct (Hoff (or_introl (ex_intro _ _ eq_refl))) as [Htrack _].
  destruct (no_session_no_tracking None None (Returns FirestoreHandle)
              (Returns tt) users alice w) as [_ Hon].
  split; [exact Htrack|].
  apply Hon. intros [[e He]|[[e He]|Hno]]; [discriminate He|discriminate He|].
  apply (Hno (FirebaseUser "u1")). right. left.
Defined.

(** A new visitor arrives at the store in which ["v1"] has been counted. *)
Lemma trackPageView_keeps_documents_witness :
  let w := fresh_world empty_storage store_seven no_faults in
  let d' := docs (remote (trackPageView None alice w).2) in
  d' !! visitor_ref None "v1" = store_seven !! visitor_ref None "v1"
  ∧ is_Some (d' !! visitor_ref None "v1").
Proof.
  intros w d'.
  assert (Hrecord : docs (remote w) !! visitor_ref None "v1"
                    = Some {[ "firstVisit" := JStr "2024-04-30T08:00:00.000Z";
                              "userAgent" := JStr "Mozilla/5.0" ]})
    by (vm_compute; reflexivity).
  destruct (trackPageView_keeps_documents None alice w) as (Hkeep & _).
  pose proof (Hkeep _ _ (visitor_ref_not_counter None "v1") Hrecord) as H.
  split; [exact (eq_trans H (eq_sym Hrecord)) | exact (mk_is_Some _ _ H)].
Defined.

(** The store rejects the read of the counter: it is the last request. *)
Lemma trackPageView_stops_at_rejection_witness :
  let w := fresh_world empty_storage ∅ (fault_only 1 "permission-denied") in
  requests_of_load None alice w
  = [(GetDoc (visitor_ref None alice_id), None)]
    ++ (GetDoc (counter_ref None), Some "permission-denied") :: []
  ∧ (length (requests_of_load None alice w) ≤ 4)%nat.
Proof.
  intros w.
  assert (Hreqs : requests_of_load None alice w
                  = [(GetDoc (visitor_ref None alice_id), None)]
                    ++ (GetDoc (counter_ref None), Some "permission-denied") :: [])
    by (vm_compute; reflexivity).
  destruct (trackPageView_stops_at_rejection None alice w) as (Hlen & Hlast & _).
  pose proof (Hlast _ _ _ _ Hreqs) as Hnil.
  split; [exact Hreqs | exact Hlen].
Defined.

Lemma reload_counts_once_witness :
  let w := fresh_world empty_storage ∅ no_faults in
  let w1 := (trackPageView None alice w).2 in
  let w2 := (trackPageView None bob w1).2 in
  getUniqueVisitorId alice (local w)
  = (Returns alice_id, (getUniqueVisitorId alice empty_storage).2)
  ∧ single_segment (appId None)
  ∧ single_segment alice_id
  ∧ docs (remote w2) = docs (remote w1)
  ∧ console w2 = console w1.
Proof.
  intros w w1 w2.
  assert (Hid : getUniqueVisitorId alice (local w)
                = (Returns alice_id, (getUniqueVisitorId alice empty_storage).2))
    by (vm_compute; reflexivity).
  destruct (reload_counts_once None alice bob w alice_id _
              eq_refl eq_refl eq_refl eq_refl Hid
              default_app_id_segment alice_id_segment (λ _, eq_refl))
    as (Hdocs & _ & Hconsole & _).
  split_and!; [exact Hid | exact default_app_id_segment
              | exact alice_id_segment | exact Hdocs | exact Hconsole].
Defined.

(** Three loads, two of which have their visitor write rejected. *)
Lemma counter_never_below_records_witness :
  let vs := [alice_visit (fault_only 3 "unavailable");
             alice_visit (fault_only 3 "unavailable");
             bob_visit no_faults] in
  counter_at_least_records None ∅
  ∧ counter_at_least_records None (after_visits None vs ∅)
  ∧ counter_value None (after_visits None vs ∅) = JNum 3
  ∧ visitor_records None (after_visits None vs ∅) = 1%nat.
Proof.
  intros vs.
  assert (H0 : counter_at_least_records None ∅).
  { exists 0. split; vm_compute; [reflexivity | discriminate]. }
  split_and!; [exact H0 | | vm_compute; reflexivity | vm_compute; reflexivity].
  exact (counter_never_below_records None vs ∅ H0).
Defined.

Lemma distinct_visitors_each_counted_witness :
  let vs := [alice_visit no_faults; bob_visit no_faults] in
  served_visit (alice_visit no_faults) alice_id
  ∧ served_visit (bob_visit no_faults) bob_id
  ∧ Forall single_segment [alice_id; bob_id]
  ∧ safe_integer (0 + Z.of_nat (length vs))
  ∧ counter_value None (after_visits None vs ∅) = JNum 2
  ∧ visitor_records None (after_visits None vs ∅) = 2%nat.
Proof.
  intros vs.
  assert (Ha : served_visit (alice_visit no_faults) alice_id).
  { split_and!; [reflexivity | reflexivity | vm_compute; reflexivity | done]. }
  assert (Hb : served_visit (bob_visit no_faults) bob_id).
  { split_and!; [reflexivity | reflexivity | vm_compute; reflexivity | done]. }
  assert (Hnodup : NoDup [alice_id; bob_id]).
  { apply NoDup_cons. split.
    - intros Hin. apply list_elem_of_singleton in Hin. discriminate Hin.
    - apply NoDup_singleton. }
  assert (Hc : counter_value None ∅ = JNum 0) by (vm_compute; reflexivity).
  assert (Hserved : Forall2 served_visit vs [alice_id; bob_id])
    by (repeat constructor; assumption).
  assert (Hsegments : Forall single_segment [alice_id; bob_id])
    by (repeat constructor; [apply alice_id_segment | apply bob_id_segment]).
  assert (Hsafe0 : safe_integer 0) by (apply safe_integer_small; lia).
  assert (Hsafe : safe_integer (0 + Z.of_nat (length vs)))
    by (apply safe_integer_small; simpl; lia).
  destruct (distinct_visitors_each_counted None vs [alice_id; bob_id] ∅ 0
              Hserved default_app_id_segment Hsegments Hnodup
              (λ _ _, lookup_empty _) Hc Hsafe0 Hsafe)
    as (Hcount & Hrecords & _).
  split_and!; [exact Ha | exact Hb | exact Hsegments | exact Hsafe
              | exact Hcount | exact Hrecords].
Defined.

Lemma counter_without_count_becomes_NaN_witness :
  let w := fresh_world empty_storage store_no_count no_faults in
  docs (remote w) !! counter_ref None = Some counter_no_count
  ∧ counter_no_count !! "count" = None
  ∧ counter_value None (docs (remote (trackPageView None alice w).2)) = JNaN.
Proof.
  intros w.
  assert (Hdoc : docs (remote w) !! counter_ref None = Some counter_no_count)
    by (vm_compute; reflexivity).
  assert (Hcount : counter_no_count !! "count" = None)
    by (vm_compute; reflexivity).
  assert (Hid : getUniqueVisitorId alice (local w)
                = (Returns alice_id, (getUniqueVisitorId alice empty_storage).2))
    by (vm_compute; reflexivity).
  assert (Hnew : docs (remote w) !! visitor_ref None alice_id = None)
    by (vm_compute; reflexivity).
  destruct (counter_without_count_becomes_NaN None alice w alice_id _
              counter_no_count eq_refl eq_refl Hid
              default_app_id_segment alice_id_segment Hnew Hdoc Hcount
              (λ _, eq_refl)) as (Hnan & _).
  split_and!; [exact Hdoc | exact Hcount | exact Hnan].
Defined.

Lemma counter_NaN_is_permanent_witness :
  let vs := [alice_visit no_faults; bob_visit no_faults] in
  counter_value None store_nan = JNaN
  ∧ counter_value None (after_visits None vs store_nan) = JNaN.
Proof.
  intros vs.
  assert (Hnan : counter_value None store_nan = JNaN) by (vm_compute; reflexivity).
  split; [exact Hnan|].
  exact (counter_NaN_is_permanent None vs store_nan Hnan).
Defined.

Lemma first_visit_shows_new_count_witness :
  let w := fresh_world empty_storage store_seven no_faults in
  let d' := docs (remote (trackPageView None alice w).2) in
  counter_value None (docs (remote w)) = JNum 7
  ∧ ∃ ref, subscription_ref None true (Some FirestoreHandle) = Some ref
      ∧ onSnapshot_next (d' !! ref) (initial_display 1000)
        = mkDisplay (JNum 8) false 1000 [] [].
Proof.
  intros w d'.
  assert (Hc : counter_value None (docs (remote w)) = JNum 7)
    by (vm_compute; reflexivity).
  assert (Hid : getUniqueVisitorId alice (local w)
                = (Returns alice_id, (getUniqueVisitorId alice empty_storage).2))
    by (vm_compute; reflexivity).
  assert (Hnew : docs (remote w) !! visitor_ref None alice_id = None)
    by (vm_compute; reflexivity).
  split; [exact Hc|].
  exact (first_visit_shows_new_count None alice w alice_id _ 7 1000
           eq_refl eq_refl Hid default_app_id_segment alice_id_segment
           Hnew Hc (safe_integer_small 7 ltac:(lia)) (λ _, eq_refl)).
Defined.

Lemma pulse_always_ends_witness :
  let u := display_run [count_snapshot 5; count_snapshot 6]
                       (initial_display 1000) in
  isPulsing u = true
  ∧ isPulsing (display_run [count_snapshot 5; count_snapshot 6; Elapse 500]
                           (initial_display 1000)) = false.
Proof.
  intros u. split; [vm_compute; reflexivity|].
  destruct (pulse_always_ends [count_snapshot 5; count_snapshot 6] 1000 500
              ltac:(lia)) as [H _].
  exact H.
Defined.

(** 6 arrives over 5, and 7 arrives 300 ms later: the second pulse ends
    after 200 ms. *)
Lemma pulse_cut_short_by_earlier_timer_witness :
  let evs := [count_snapshot 5; count_snapshot 6; Elapse 300] in
  let u := display_run evs (initial_display 1000) in
  let u' := onSnapshot_next (Some {[ "count" := JNum 7 ]}) u in
  (1500, false) ∈ timers u
  ∧ clock u = 1300
  ∧ isPulsing u' = true
  ∧ isPulsing (advance 200 u') = false.
Proof.
  intros evs u u'.
  assert (Hin : (1500, false) ∈ timers u).
  { apply list_elem_of_In. vm_compute. left. reflexivity. }
  assert (Hnew : js_or (field {[ "count" := JNum 7 ]} "count") (JNum 0)
                 ≠ viewCount u)
    by (vm_compute; intros H; discriminate H).
  assert (Hold : viewCount u ≠ JNum 0)
    by (vm_compute; intros H; discriminate H).
  destruct (pulse_cut_short_by_earlier_timer evs 1000 {[ "count" := JNum 7 ]}
              1500 false Hin Hnew Hold) as (Hp & _ & Hend).
  split_and!; [exact Hin | vm_compute; reflexivity | exact Hp | exact Hend].
Defined.

(** A new visitor of the deployment ["app-a"] and the store of the
    deployment without an app id. *)
Lemma app_ids_do_not_interfere_witness :
  let w := fresh_world empty_storage store_seven no_faults in
  let d' := docs (remote (trackPageView (Some "app-a") alice w).2) in
  appId (Some "app-a") ≠ appId None
  ∧ single_segment (appId (Some "app-a"))
  ∧ counter_value (Some "app-a") d' = JNum 1
  ∧ counter_value None d' = JNum 7
  ∧ visitor_records None d' = 1%nat.
Proof.
  intros w d'.
  assert (Happ : appId (Some "app-a") ≠ appId None)
    by (vm_compute; intros H; discriminate H).
  assert (Hseven : counter_value None (docs (remote w)) = JNum 7)
    by (vm_compute; reflexivity).
  assert (Hone : visitor_records None (docs (remote w)) = 1%nat)
    by (vm_compute; reflexivity).
  assert (Hseg : single_segment (appId (Some "app-a"))) by segment.
  destruct (app_ids_do_not_interfere (Some "app-a") None alice w
              Hseg default_app_id_segment Happ)
    as (_ & Hc & _ & Hr).
  split_and!; [exact Happ | exact Hseg | vm_compute; reflexivity
              | exact (eq_trans Hc Hseven) | exact (eq_trans Hr Hone)].
Defined.

Lemma display_shows_latest_snapshot_witness :
  let rest := [Elapse 100; SnapshotError (FirestoreError "unavailable")] in
  viewCount (display_run ([count_snapshot 5]
                            ++ Snapshot (Some {[ "count" := JNum 6 ]}) :: rest)
                         (initial_display 1000)) = JNum 6.
Proof.
  intros rest.
  assert (Hrest : Forall (λ ev, ∀ s, ev ≠ Snapshot s) rest)
    by (repeat constructor; intros s H; discriminate H).
  destruct (display_shows_latest_snapshot [count_snapshot 5] rest
              (Some {[ "count" := JNum 6 ]}) (initial_display 1000) Hrest)
    as [H _].
  exact H.
Defined.
